(** * CastQuotes: quote-source resolution, cast dispatch and admin session

    A shallow embedding of [src/App.tsx].  The component is a React function
    component; its logic is embedded as state-passing functions over a
    record holding the component state, the browser's [localStorage] and
    a log of the calls made to the host (network, dialogs, messaging,
    clipboard).  Browser primitives the component only calls ([JSON.parse],
    [JSON.stringify], [fetch], [confirm], [Math.random], the host window)
    are inputs of the model. *)

From Stdlib Require Import Ascii.
From stdpp Require Import gmap list fin_maps strings pretty.

Set Default Proof Using "Type".
Set Warnings "-register-all".

(** ** JavaScript strings

    A JS string is a sequence of UTF-16 code units; [length] and [trim]
    count and inspect code units, so strings are lists of code units. *)

Abbreviation jsstring := (list N).

Fixpoint u16 (s : string) : jsstring :=
  match s with
  | EmptyString => []
  | String a s' => Ascii.N_of_ascii a :: u16 s'
  end.

(** [!s] for a string value: only the empty string is falsy. *)
Definition str_truthy (s : jsstring) : bool :=
  match s with
  | [] => false
  | _ :: _ => true
  end.

(** [a === b] on strings. *)
Definition str_eqb (a b : jsstring) : bool := bool_decide (a = b).

(** ECMAScript WhiteSpace and LineTerminator code points, the characters
    [String.prototype.trim] strips. *)
Definition isWhiteSpace (c : N) : bool :=
  ((9 <=? c) && (c <=? 13) || (c =? 32) || (c =? 160) || (c =? 5760)
   || (8192 <=? c) && (c <=? 8202) || (c =? 8232) || (c =? 8233)
   || (c =? 8239) || (c =? 8287) || (c =? 12288) || (c =? 65279))%N.

Fixpoint trimStart (s : jsstring) : jsstring :=
  match s with
  | [] => []
  | c :: s' => if isWhiteSpace c then trimStart s' else s
  end.

Definition trimEnd (s : jsstring) : jsstring := rev (trimStart (rev s)).

Definition trim (s : jsstring) : jsstring := trimEnd (trimStart s).

(** A string that does not start with white space. *)
Definition starts_clean (s : jsstring) : Prop :=
  match s with
  | [] => True
  | c :: _ => isWhiteSpace c = false
  end.

(** ** JSON values, as [JSON.parse] produces them *)

Inductive json : Type :=
  | JNull
  | JBool (b : bool)
  | JNum (n : Z)
  | JStr (s : jsstring)
  | JArr (elems : list json)
  | JObj (fields : list (jsstring * json)).

Definition Array_isArray (v : json) : bool :=
  match v with
  | JArr _ => true
  | _ => false
  end.

(** [v.length] for an array value. *)
Definition arr_elems (v : json) : list json :=
  match v with
  | JArr l => l
  | _ => []
  end.

(** A quote in the sense of the data model: a non-empty string. *)
Definition is_quote (v : json) : bool :=
  match v with
  | JStr s => str_truthy s
  | _ => false
  end.

(** ** Constants of the module *)

Definition DEFAULT_QUOTES : list json :=
  JStr <$>
  [ u16 "Build in public, cast in style.";
    u16 "One frame can change your feed.";
    u16 "Stay decentralized, stay visible.";
    u16 "Your words, onchain forever.";
    u16 "BASE IS FOR EVERYONE";
    u16 "JESSE IS BALD AND BASED";
    u16 "ETH-erion for life";
    u16 "Miniapp is the name, but bigger job than your PP";
    u16 "BASED META";
    u16 "Mint warplet or die";
    u16 "CLANKER here, CLANKER there, CLANKER everywhere";
    u16 "$NOICE? or NOICE";
    u16 "SATOSHI is building now on BASE";
    u16 "Yo mamma!";
    u16 "CAST or you are GAY";
    u16 "gm to the gmers and gm to the gners";
    u16 "RUGGED onchain";
    u16 "VITALIK GAY";
    u16 "ETH to $10,690";
    u16 "1 + 1 = BASED";
    (* eye, lips, eye: surrogate pairs and variation selectors *)
    [55357; 56385; 65039; 55358; 57062; 55357; 56385; 65039]%N;
    u16 "NO FEE NOVEMBER";
    u16 "NUT DAILY TRADE DAILY on FARCASTER";
    (* camera, peach *)
    [55357; 56567; 55356; 57169]%N ].

Definition STORAGE_KEY : jsstring := u16 "castquotes_quotes_v1".
Definition ADMIN_PW_KEY : jsstring := u16 "castquotes_admin_pw_v1".

Definition RAW_GITHUB_URL : jsstring :=
  u16 "https://raw.githubusercontent.com/HelloWorld2309/castquotes/main/quotes.json".

(** ** localStorage

    A string-keyed map of strings with a size quota: [setItem] throws
    (QuotaExceededError) when the map would outgrow the quota and leaves
    the map as it was. *)

Record Storage : Type := mkStorage {
  items : gmap (list N) (list N);
  quota : N
}.

Definition usage (m : gmap (list N) (list N)) : N :=
  map_fold (fun k v acc => N.of_nat (length k) + N.of_nat (length v) + acc)%N 0%N m.

Definition getItem (k : jsstring) (st : Storage) : option jsstring :=
  items st !! k.

(** [None] stands for the exception. *)
Definition setItem (k v : jsstring) (st : Storage) : option Storage :=
  let m := <[k := v]> (items st) in
  if (usage m <=? quota st)%N then Some (mkStorage m (quota st)) else None.

(** [try { localStorage.setItem(k, v) } catch { }]: the store afterwards. *)
Definition setItem_caught (k v : jsstring) (st : Storage) : Storage :=
  default st (setItem k v st).

(** The write of [v] under [k] stays within the quota. *)
Definition fits (k v : jsstring) (st : Storage) : Prop :=
  (usage (<[k := v]> (items st)) <= quota st)%N.

Definition emptyStorage (q : N) : Storage := mkStorage ∅ q.

(** ** Calls to the host, in the order they are made *)

Record Message : Type := mkMessage {
  msg_source : jsstring;
  msg_type : jsstring;
  msg_text : jsstring
}.

Inductive Event : Type :=
  | EvFetch (url cache : jsstring)
  | EvAlert (msg : jsstring)
  | EvConfirm (msg : jsstring)
  | EvOpenComposer (text : jsstring)
  | EvPostMessage (m : Message) (targetOrigin : jsstring)
  | EvClipboardWrite (text : jsstring)
  | EvPrompt (msg dflt : jsstring).

Definition is_fetch (e : Event) : bool :=
  match e with
  | EvFetch _ _ => true
  | _ => false
  end.

Definition is_open (e : Event) : bool :=
  match e with
  | EvOpenComposer _ => true
  | _ => false
  end.

Definition is_post (e : Event) : bool :=
  match e with
  | EvPostMessage _ _ => true
  | _ => false
  end.

Definition is_clipboard (e : Event) : bool :=
  match e with
  | EvClipboardWrite _ => true
  | _ => false
  end.

Definition is_prompt (e : Event) : bool :=
  match e with
  | EvPrompt _ _ => true
  | _ => false
  end.

Definition count (p : Event -> bool) (l : list Event) : nat :=
  length (filter (fun e => p e = true) l).

(** ** Component state: one field per [useState] *)

Inductive AuthStep : Type := locked | unlocked.

Record AppState : Type := mkApp {
  quotes : list json;
  quote : option json;          (* [None] is [undefined] *)
  adminOpen : bool;
  authStep : AuthStep;
  pwInput : jsstring;
  newQuoteText : jsstring;
  adminPwState : jsstring       (* written, never read: [const [, setAdminPwState]] *)
}.

(** The component together with its surroundings.  [dirty] says that
    [setQuotes] ran since the last commit, so the effect with dependency
    [[quotes]] is due: every [setQuotes] of the component passes a fresh
    array, which never compares equal to the previous one. *)
Record Sys : Type := mkSys {
  app : AppState;
  store : Storage;
  log : list Event;
  dirty : bool
}.

(** ** A state monad over [Sys] *)

Definition M (A : Type) : Type := Sys -> A * Sys.

Definition ret {A} (a : A) : M A := fun s => (a, s).
Definition bind {A B} (m : M A) (k : A -> M B) : M B :=
  fun s => let (a, s') := m s in k a s'.
Definition exec {A} (m : M A) (s : Sys) : Sys := snd (m s).

Declare Scope m_scope.
Delimit Scope m_scope with M.
Notation "x <- m ;; k" := (bind m (fun x => k))
  (at level 100, m at next level, right associativity) : m_scope.
Notation "m ;; k" := (bind m (fun _ => k))
  (at level 100, right associativity) : m_scope.
Open Scope m_scope.

Definition get_app : M AppState := fun s => (app s, s).
Definition upd_app (f : AppState -> AppState) : M unit :=
  fun s => (tt, mkSys (f (app s)) (store s) (log s) (dirty s)).
Definition emit (e : Event) : M unit :=
  fun s => (tt, mkSys (app s) (store s) (log s ++ [e]) (dirty s)).

Definition localStorage_getItem (k : jsstring) : M (option jsstring) :=
  fun s => (getItem k (store s), s).

(** [try { localStorage.setItem(k, v) } catch { }]: the callers all swallow
    the exception, after which the store is as before. *)
Definition try_setItem (k v : jsstring) : M unit :=
  fun s => (tt, mkSys (app s) (setItem_caught k v (store s)) (log s) (dirty s)).

Definition setQuotes (l : list json) : M unit :=
  fun s => (tt, mkSys (mkApp l (quote (app s)) (adminOpen (app s)) (authStep (app s))
                         (pwInput (app s)) (newQuoteText (app s)) (adminPwState (app s)))
                      (store s) (log s) true).
Definition setQuote (q : option json) : M unit :=
  upd_app (fun a => mkApp (quotes a) q (adminOpen a) (authStep a) (pwInput a) (newQuoteText a) (adminPwState a)).
Definition setAdminOpen (b : bool) : M unit :=
  upd_app (fun a => mkApp (quotes a) (quote a) b (authStep a) (pwInput a) (newQuoteText a) (adminPwState a)).
Definition setAuthStep (x : AuthStep) : M unit :=
  upd_app (fun a => mkApp (quotes a) (quote a) (adminOpen a) x (pwInput a) (newQuoteText a) (adminPwState a)).
Definition setPwInput (x : jsstring) : M unit :=
  upd_app (fun a => mkApp (quotes a) (quote a) (adminOpen a) (authStep a) x (newQuoteText a) (adminPwState a)).
Definition setNewQuoteText (x : jsstring) : M unit :=
  upd_app (fun a => mkApp (quotes a) (quote a) (adminOpen a) (authStep a) (pwInput a) x (adminPwState a)).
Definition setAdminPwState (x : jsstring) : M unit :=
  upd_app (fun a => mkApp (quotes a) (quote a) (adminOpen a) (authStep a) (pwInput a) (newQuoteText a) x).

Definition alert (msg : string) : M unit := emit (EvAlert (u16 msg)).

(** [confirm(msg)]: the user's answer is an input. *)
Definition confirm (answer : bool) (msg : string) : M bool :=
  emit (EvConfirm (u16 msg)) ;; ret answer.

(** ** Inputs from the environment *)

(** What [await fetch(...)] followed by [res.json()] can meet: a rejected
    request, or a response with its [ok] flag and body text. *)
Inductive FetchOutcome : Type :=
  | NetworkError
  | Response (ok : bool) (body : jsstring).

(** [Math.floor(Math.random() * n)] is computed by the platform, in double
    arithmetic; the component only indexes with the result.  The index the
    platform yields for a list of length [n] is an input of the model. *)
Record Random : Type := mkRandom { floor_random_times : nat -> nat }.

(** [quotes[i]] for that index; [None] is [undefined]. *)
Definition pickRandomQuote (r : Random) (qs : list json) : option json :=
  qs !! floor_random_times r (length qs).

(** ** The host window, as far as the cast dispatcher looks at it *)

(** What a call into the host does. *)
Inductive Callable : Type := Returns | Throws.

(** A global such as [window.farcaster]: falsy (usually [undefined]), or a
    truthy value whose [openComposer] property is a function or not. *)
Inductive Global : Type :=
  | GFalsy
  | GTruthy (openComposer : option Callable).

Record Window : Type := mkWindow {
  farcaster : Global;
  Farcaster : Global;
  parent_postMessage : Callable;
  clipboard : option Callable   (* [None]: [navigator.clipboard] is undefined *)
}.

(** [a || b] on globals. *)
Definition js_or (a b : Global) : Global :=
  match a with
  | GFalsy => b
  | GTruthy _ => a
  end.

(** The function the dispatcher would call, if any:
    [globalAny && typeof globalAny.openComposer === "function"]. *)
Definition hostComposer (w : Window) : option Callable :=
  match js_or (farcaster w) (Farcaster w) with
  | GTruthy (Some f) => Some f
  | _ => None
  end.

Definition OPEN_COMPOSER (text : jsstring) : Message :=
  mkMessage (u16 "castquotes-miniapp") (u16 "OPEN_COMPOSER") text.

(** [tryOpenFarcasterComposer].  The log records each call attempted on
    the host, also one that throws. *)
Definition tryOpenFarcasterComposer (w : Window) (text : jsstring) : M unit :=
  opened <- match hostComposer w with
            | Some f =>
                emit (EvOpenComposer text) ;;
                ret (match f with Returns => true | Throws => false end)
            | None => ret false
            end ;;
  if opened : bool then ret tt else
  emit (EvPostMessage (OPEN_COMPOSER text) (u16 "*")) ;;
  match parent_postMessage w with
  | Returns => ret tt
  | Throws =>
      match clipboard w with
      | Some f =>
          emit (EvClipboardWrite text) ;;
          match f with
          | Returns => alert "Quote copied to clipboard. Paste it into Farcaster to cast."
          | Throws => emit (EvPrompt (u16 "Copy this quote:") text)
          end
      | None => emit (EvPrompt (u16 "Copy this quote:") text)
      end
  end.

(** The calls one dispatch makes, by cases on the host. *)
Definition cast_calls (w : Window) (text : jsstring) : list Event :=
  let post := EvPostMessage (OPEN_COMPOSER text) (u16 "*") in
  let fallback :=
    match parent_postMessage w with
    | Returns => []
    | Throws =>
        match clipboard w with
        | Some Returns =>
            [EvClipboardWrite text;
             EvAlert (u16 "Quote copied to clipboard. Paste it into Farcaster to cast.")]
        | Some Throws => [EvClipboardWrite text; EvPrompt (u16 "Copy this quote:") text]
        | None => [EvPrompt (u16 "Copy this quote:") text]
        end
    end in
  match hostComposer w with
  | Some Returns => [EvOpenComposer text]
  | Some Throws => EvOpenComposer text :: post :: fallback
  | None => post :: fallback
  end.

(** ** The component, over the platform's JSON functions *)

Section Platform.

(** [JSON.parse] ([None]: SyntaxError) and [JSON.stringify]. *)
Variable JSON_parse : jsstring -> option json.
Variable JSON_stringify : json -> jsstring.

(** [Array.isArray(v) && v.length > 0] *)
Definition nonempty_array (v : json) : bool :=
  Array_isArray v && (0 <? length (arr_elems v))%nat.

Definition fetch_result (net : FetchOutcome) : option (list json) :=
  match net with
  | NetworkError => None                       (* catch *)
  | Response ok body =>
      if negb ok then None else
      match JSON_parse body with
      | None => None                           (* catch *)
      | Some data => if nonempty_array data then Some (arr_elems data) else None
      end
  end.

Definition fetchQuotesFromGithub (net : FetchOutcome) : M (option (list json)) :=
  emit (EvFetch RAW_GITHUB_URL (u16 "no-store")) ;;
  ret (fetch_result net).

Definition loadQuotes (st : Storage) : list json :=
  match getItem STORAGE_KEY st with
  | None => DEFAULT_QUOTES
  | Some raw =>
      if negb (str_truthy raw) then DEFAULT_QUOTES else
      match JSON_parse raw with
      | None => DEFAULT_QUOTES                 (* catch *)
      | Some parsed => if nonempty_array parsed then arr_elems parsed else DEFAULT_QUOTES
      end
  end.

Definition saveQuotes (qs : list json) : M unit :=
  try_setItem STORAGE_KEY (JSON_stringify (JArr qs)).

Definition getAdminPw (st : Storage) : jsstring :=
  match getItem ADMIN_PW_KEY st with
  | Some stored => if str_truthy stored then stored else u16 "basedfin"
  | None => u16 "basedfin"
  end.

Definition persistAdminPw (pw : jsstring) : M unit :=
  try_setItem ADMIN_PW_KEY pw.

(** The effect [useEffect(() => saveQuotes(quotes), [quotes])] on a
    re-render: it runs when [quotes] changed. *)
Definition commit : M unit :=
  fun s =>
    if dirty s
    then saveQuotes (quotes (app s)) (mkSys (app s) (store s) (log s) false)
    else (tt, s).

(** An event handler, followed by the re-render it causes. *)
Definition handle (h : M unit) : M unit := h ;; commit.

(** Step 1 of the resolver; [true] when it returned from the effect.
    [cancelled] is still [false] here: the cleanup cannot have run yet. *)
Definition resolve_local (r : Random) : M bool :=
  raw <- localStorage_getItem STORAGE_KEY ;;
  match raw with
  | Some raw =>
      if str_truthy raw then
        match JSON_parse raw with
        | Some parsed =>
            if nonempty_array parsed then
              setQuotes (arr_elems parsed) ;;
              setQuote (pickRandomQuote r (arr_elems parsed)) ;;
              ret true
            else ret false
        | None => ret false                    (* catch *)
        end
      else ret false
  | None => ret false
  end.

(** What step 1 finds: the stored list, when [localStorage] holds text
    that parses to a non-empty array; [None] for a store that is empty,
    unparsable or of another shape. *)
Definition stored_list (st : Storage) : option (list json) :=
  match getItem STORAGE_KEY st with
  | Some raw =>
      if str_truthy raw then
        match JSON_parse raw with
        | Some parsed => if nonempty_array parsed then Some (arr_elems parsed) else None
        | None => None
        end
      else None
  | None => None
  end.

(** Steps 2 and 3, once the fetch has settled; [cancelled] tells whether
    the component was unmounted in the meantime. *)
Definition resolve_remote (r : Random) (cancelled : bool)
    (remote : option (list json)) : M unit :=
  match remote with
  | Some remote =>
      if negb cancelled then
        setQuotes remote ;;
        setQuote (pickRandomQuote r remote) ;;
        try_setItem STORAGE_KEY (JSON_stringify (JArr remote))
      else ret tt
  | None =>
      if negb cancelled then
        setQuotes DEFAULT_QUOTES ;;
        setQuote (pickRandomQuote r DEFAULT_QUOTES)
      else ret tt
  end.

(** The first render: the [useState] initialisers. *)
Definition initialState (st : Storage) : AppState :=
  mkApp (loadQuotes st) (Some (JStr [])) false locked [] [] (getAdminPw st).

Definition initialSys (st : Storage) : Sys := mkSys (initialState st) st [] false.

(** Mounting the component: the two effects after the first render, the
    re-render, and the rest of the resolver once the fetch has settled. *)
Definition App_mount (r : Random) (net : FetchOutcome) (cancelled : bool) : M unit :=
  a0 <- get_app ;;
  stop <- resolve_local r ;;
  remote <- (if stop : bool then ret None else fetchQuotesFromGithub net) ;;
  st <- (fun s => (store s, s)) ;;
  setAdminPwState (getAdminPw st) ;;
  saveQuotes (quotes a0) ;;
  commit ;;
  if stop then ret tt else
  (resolve_remote r cancelled remote ;;
   commit).

(** The load-time resolution from a given [localStorage]. *)
Definition resolve (r : Random) (net : FetchOutcome) (cancelled : bool)
    (st : Storage) : Sys :=
  exec (App_mount r net cancelled) (initialSys st).

(** *** Admin handlers *)

Definition openAdmin : M unit :=
  setPwInput [] ;; setAuthStep locked ;; setAdminOpen true.

Definition tryUnlock : M unit :=
  a <- get_app ;;
  st <- (fun s => (store s, s)) ;;
  let pw := getAdminPw st in
  if str_eqb (pwInput a) pw then
    setAuthStep unlocked ;; setPwInput []
  else alert "Incorrect password.".

Definition handleAddQuote : M unit :=
  a <- get_app ;;
  let t := trim (newQuoteText a) in
  if negb (str_truthy t) then ret tt else
  setQuotes (JStr t :: quotes a) ;;
  setNewQuoteText [] ;;
  alert "Quote added (saved locally).".

(** The index [Array.prototype.splice] starts at, for an integer [idx]. *)
Definition splice_start (idx : Z) (len : nat) : nat :=
  if (idx <? 0)%Z then Z.to_nat (Z.max (Z.of_nat len + idx) 0)
  else Nat.min (Z.to_nat idx) len.

(** [next.splice(idx, 1)] on a copy of [l]. *)
Definition splice1 (idx : Z) (l : list json) : list json :=
  delete (splice_start idx (length l)) l.

Definition handleDeleteQuote (answer : bool) (idx : Z) : M unit :=
  ok <- confirm answer "Delete this quote?" ;;
  if negb ok then ret tt else
  a <- get_app ;;
  setQuotes (splice1 idx (quotes a)) ;;
  alert "Deleted (saved locally).".

Definition handleSetPw : M unit :=
  a <- get_app ;;
  let t := trim (pwInput a) in
  if (length t <? 4)%nat then alert "Password must be at least 4 characters." else
  persistAdminPw t ;;
  setAdminPwState t ;;
  alert "Password updated." ;;
  setPwInput [].

Definition handleResetToDefault (answer : bool) : M unit :=
  ok <- confirm answer "Reset all quotes to the original default list? This will overwrite local edits." ;;
  if negb ok then ret tt else
  setQuotes DEFAULT_QUOTES ;;
  saveQuotes DEFAULT_QUOTES ;;
  alert "Reset complete.".

(** Opening the panel, typing [pw] into the password field and pressing
    Unlock. *)
Definition attempt_unlock (pw : jsstring) : M unit :=
  handle openAdmin ;; handle (setPwInput pw) ;; handle tryUnlock.

(** [pw] authenticates in [s]: the attempt ends unlocked. *)
Definition authenticates (s : Sys) (pw : jsstring) : bool :=
  match authStep (app (exec (attempt_unlock pw) s)) with
  | unlocked => true
  | locked => false
  end.

(** *** The rendered page as a set of user actions *)

(** The close button of the panel. *)
Definition closeAdmin : M unit := setAdminOpen false.

(** The "Forgot?" button. *)
Definition forgot : M unit := alert "Default password (local-only): basedfin".

(** What a user can do with the controls of the page, the cast button
    apart: typing into the two kinds of input, and the buttons.  A delete
    button exists per row [i] of [quotes.map]; the answers given to
    [confirm] come with the action. *)
Inductive Action : Type :=
  | AOpenAdmin
  | ACloseAdmin
  | ATypePw (v : jsstring)
  | AUnlock
  | AForgot
  | ATypeQuote (v : jsstring)
  | AAdd
  | ADelete (answer : bool) (i : nat)
  | ASetPw
  | AReset (answer : bool).

Definition is_unlocked (x : AuthStep) : bool :=
  match x with
  | unlocked => true
  | locked => false
  end.

(** Whether the control of an action is rendered: the gear always, the
    rest inside [adminOpen && ...], split by [authStep === "locked"]. *)
Definition rendered (a : Action) (st : AppState) : bool :=
  match a with
  | AOpenAdmin => true
  | ACloseAdmin | ATypePw _ => adminOpen st
  | AUnlock | AForgot => adminOpen st && negb (is_unlocked (authStep st))
  | ATypeQuote _ | AAdd | ASetPw | AReset _ => adminOpen st && is_unlocked (authStep st)
  | ADelete _ i =>
      adminOpen st && is_unlocked (authStep st) && (i <? length (quotes st))%nat
  end.

Definition perform (a : Action) : M unit :=
  match a with
  | AOpenAdmin => openAdmin
  | ACloseAdmin => closeAdmin
  | ATypePw v => setPwInput v
  | AUnlock => tryUnlock
  | AForgot => forgot
  | ATypeQuote v => setNewQuoteText v
  | AAdd => handleAddQuote
  | ADelete answer i => handleDeleteQuote answer (Z.of_nat i)
  | ASetPw => handleSetPw
  | AReset answer => handleResetToDefault answer
  end.

(** One action on the page: nothing happens without its control. *)
Definition ui_step (s : Sys) (a : Action) : Sys :=
  if rendered a (app s) then exec (handle (perform a)) s else s.

Definition ui_run (s : Sys) (l : list Action) : Sys := foldl ui_step s l.

End Platform.

(** The state of an untouched gate: locked, the secret not in the field,
    list and secret as at the start. *)
Definition gate_holds (s0 s : Sys) : Prop :=
  authStep (app s) = locked /\
  pwInput (app s) <> getAdminPw (store s0) /\
  quotes (app s) = quotes (app s0) /\
  getItem ADMIN_PW_KEY (store s) = getItem ADMIN_PW_KEY (store s0).

(** The host calls made between [s] and a later [s']. *)
Definition calls_since (s s' : Sys) : list Event :=
  drop (length (log s)) (log s').

Arguments u16 : simpl never.
Arguments trim : simpl never.
Arguments getItem : simpl never.
Arguments setItem : simpl never.
Arguments setItem_caught : simpl never.
Arguments getAdminPw : simpl never.
Arguments splice1 : simpl never.

(** ** A reference JSON codec

    The component is verified for every [JSON.parse] and [JSON.stringify];
    this codec (integers for numbers, escapes as [JSON.stringify] writes
    them) instantiates the results on concrete storage contents. *)

Module RefJSON.

Definition json_ws (c : N) : bool :=
  ((c =? 32) || (c =? 9) || (c =? 10) || (c =? 13))%N.

Fixpoint skip_ws (s : jsstring) : jsstring :=
  match s with
  | [] => []
  | c :: s' => if json_ws c then skip_ws s' else s
  end.

(** [strip p s]: what follows the literal [p] at the head of [s]. *)
Fixpoint strip (p s : jsstring) : option jsstring :=
  match p, s with
  | [], _ => Some s
  | a :: p', b :: s' => if (a =? b)%N then strip p' s' else None
  | _ :: _, [] => None
  end.

Definition is_digit (c : N) : bool := ((48 <=? c) && (c <=? 57))%N.

Definition hex_digit (c : N) : option N :=
  if is_digit c then Some (c - 48)%N
  else if ((97 <=? c) && (c <=? 102))%N then Some (c - 87)%N
  else if ((65 <=? c) && (c <=? 70))%N then Some (c - 55)%N
  else None.

Definition unescape (e : N) : option N :=
  if (e =? 34)%N then Some 34%N          (* quote *)
  else if (e =? 92)%N then Some 92%N     (* backslash *)
  else if (e =? 47)%N then Some 47%N     (* slash *)
  else if (e =? 98)%N then Some 8%N      (* b *)
  else if (e =? 102)%N then Some 12%N    (* f *)
  else if (e =? 110)%N then Some 10%N    (* n *)
  else if (e =? 114)%N then Some 13%N    (* r *)
  else if (e =? 116)%N then Some 9%N     (* t *)
  else None.

Definition hex4 (a b c d : N) : option N :=
  match hex_digit a, hex_digit b, hex_digit c, hex_digit d with
  | Some x, Some y, Some z, Some w => Some (x * 4096 + y * 256 + z * 16 + w)%N
  | _, _, _, _ => None
  end.

Definition push (c : option N) (r : option (jsstring * jsstring)) :
    option (jsstring * jsstring) :=
  match c, r with
  | Some c, Some (str, rest) => Some (c :: str, rest)
  | _, _ => None
  end.

(** The characters of a string literal, after its opening quote. *)
Fixpoint parse_chars (s : jsstring) : option (jsstring * jsstring) :=
  match s with
  | [] => None
  | c :: s' =>
      if (c =? 34)%N then Some ([], s')
      else if (c =? 92)%N then
        match s' with
        | [] => None
        | e :: s'' =>
            if (e =? 117)%N then
              match s'' with
              | h1 :: h2 :: h3 :: h4 :: s3 => push (hex4 h1 h2 h3 h4) (parse_chars s3)
              | _ => None
              end
            else push (unescape e) (parse_chars s'')
        end
      else if (c <? 32)%N then None
      else push (Some c) (parse_chars s')
  end.

Fixpoint parse_digits (acc : N) (s : jsstring) : N * jsstring :=
  match s with
  | [] => (acc, [])
  | c :: s' => if is_digit c then parse_digits (acc * 10 + (c - 48)) s' else (acc, s)
  end.

(** Integers only: a fraction or an exponent is refused. *)
Definition parse_number (s : jsstring) : option (json * jsstring) :=
  let '(neg, s1) :=
    match s with
    | c :: s' => if (c =? 45)%N then (true, s') else (false, s)
    | [] => (false, s)
    end in
  match s1 with
  | [] => None
  | c :: s2 =>
      if is_digit c then
        let '(n, r) := if (c =? 48)%N then (0%N, s2) else parse_digits 0 s1 in
        let v := if neg : bool then (- Z.of_N n)%Z else Z.of_N n in
        match r with
        | d :: _ => if ((d =? 46) || (d =? 101) || (d =? 69))%N then None else Some (JNum v, r)
        | [] => Some (JNum v, r)
        end
      else None
  end.

Fixpoint parse_value (fuel : nat) (s : jsstring) : option (json * jsstring) :=
  match fuel with
  | O => None
  | S fuel =>
      match skip_ws s with
      | [] => None
      | c :: r =>
          if (c =? 34)%N then
            match parse_chars r with
            | Some (str, rest) => Some (JStr str, rest)
            | None => None
            end
          else if (c =? 91)%N then
            match skip_ws r with
            | d :: r' => if (d =? 93)%N then Some (JArr [], r') else
                match parse_elems fuel r with
                | Some (l, rest) => Some (JArr l, rest)
                | None => None
                end
            | [] => None
            end
          else if (c =? 123)%N then
            match skip_ws r with
            | d :: r' => if (d =? 125)%N then Some (JObj [], r') else
                match parse_members fuel r with
                | Some (l, rest) => Some (JObj l, rest)
                | None => None
                end
            | [] => None
            end
          else if (c =? 110)%N then option_map (pair JNull) (strip (u16 "ull") r)
          else if (c =? 116)%N then option_map (pair (JBool true)) (strip (u16 "rue") r)
          else if (c =? 102)%N then option_map (pair (JBool false)) (strip (u16 "alse") r)
          else parse_number (c :: r)
      end
  end
with parse_elems (fuel : nat) (s : jsstring) : option (list json * jsstring) :=
  match fuel with
  | O => None
  | S fuel =>
      match parse_value fuel s with
      | None => None
      | Some (v, r) =>
          match skip_ws r with
          | d :: r' =>
              if (d =? 44)%N then
                match parse_elems fuel r' with
                | Some (l, rest) => Some (v :: l, rest)
                | None => None
                end
              else if (d =? 93)%N then Some ([v], r')
              else None
          | [] => None
          end
      end
  end
with parse_members (fuel : nat) (s : jsstring) : option (list (jsstring * json) * jsstring) :=
  match fuel with
  | O => None
  | S fuel =>
      match skip_ws s with
      | q :: r0 =>
          if (q =? 34)%N then
            match parse_chars r0 with
            | None => None
            | Some (k, r1) =>
                match skip_ws r1 with
                | col :: r2 =>
                    if (col =? 58)%N then
                      match parse_value fuel r2 with
                      | None => None
                      | Some (v, r) =>
                          match skip_ws r with
                          | d :: r' =>
                              if (d =? 44)%N then
                                match parse_members fuel r' with
                                | Some (l, rest) => Some ((k, v) :: l, rest)
                                | None => None
                                end
                              else if (d =? 125)%N then Some ([(k, v)], r')
                              else None
                          | [] => None
                          end
                      end
                    else None
                | [] => None
                end
            end
          else None
      | [] => None
      end
  end.

Definition parse (s : jsstring) : option json :=
  match parse_value (S (length s)) s with
  | Some (v, r) => match skip_ws r with [] => Some v | _ :: _ => None end
  | None => None
  end.

Definition hex_char (n : N) : N := if (n <? 10)%N then (48 + n)%N else (87 + n)%N.

Definition escape (c : N) : jsstring :=
  if (c =? 34)%N then [92; 34]%N
  else if (c =? 92)%N then [92; 92]%N
  else if (c =? 8)%N then [92; 98]%N
  else if (c =? 12)%N then [92; 102]%N
  else if (c =? 10)%N then [92; 110]%N
  else if (c =? 13)%N then [92; 114]%N
  else if (c =? 9)%N then [92; 116]%N
  else if (c <? 32)%N then [92; 117; 48; 48; hex_char (c / 16); hex_char (c mod 16)]%N
  else [c].

Definition quote_str (s : jsstring) : jsstring :=
  34%N :: concat (escape <$> s) ++ [34%N].

Fixpoint stringify (v : json) : jsstring :=
  match v with
  | JNull => u16 "null"
  | JBool b => if b then u16 "true" else u16 "false"
  | JNum n => u16 (pretty n)
  | JStr s => quote_str s
  | JArr l =>
      91%N :: (fix go (l : list json) : jsstring :=
                 match l with
                 | [] => []
                 | x :: l' =>
                     match l' with
                     | [] => stringify x
                     | _ :: _ => stringify x ++ 44%N :: go l'
                     end
                 end) l ++ [93%N]
  | JObj fs =>
      123%N :: (fix go (fs : list (jsstring * json)) : jsstring :=
                  match fs with
                  | [] => []
                  | (k, x) :: fs' =>
                      match fs' with
                      | [] => quote_str k ++ 58%N :: stringify x
                      | _ :: _ => quote_str k ++ 58%N :: stringify x ++ 44%N :: go fs'
                      end
                  end) fs ++ [125%N]
  end.

End RefJSON.


(** ** Concrete inputs, over the reference codec *)

Module Concrete.

Definition gm : json := JStr (u16 "gm").
Definition gn : json := JStr (u16 "gn").

(** [Math.random()] yielding 0.5, whose product with a length is exact. *)
Definition half : Random := mkRandom (fun n => n / 2).

(** A store that holds the list [gm; gn]. *)
Definition gm_store : Storage :=
  mkStorage {[ STORAGE_KEY := RefJSON.stringify (JArr [gm; gn]) ]} 5000.

(** A store that holds the one-quote list [gm]. *)
Definition one_store : Storage :=
  mkStorage {[ STORAGE_KEY := RefJSON.stringify (JArr [gm]) ]} 5000.

(** A store in which an empty secret was written. *)
Definition blank_secret_store : Storage :=
  mkStorage {[ ADMIN_PW_KEY := [] ]} 5000.

Definition load (st : Storage) : Sys :=
  resolve RefJSON.parse RefJSON.stringify half NetworkError false st.

(** The panel with [pw] typed into the password field. *)
Definition typed (pw : string) (st : Storage) : Sys :=
  exec (handle RefJSON.stringify (setPwInput (u16 pw))) (load st).

(** A host whose composer is present but throws. *)
Definition throwing_host : Window :=
  mkWindow (GTruthy (Some Throws)) GFalsy Returns (Some Returns).

End Concrete.

(** * Properties *)

(** ** The store *)

Lemma keys_distinct : STORAGE_KEY <> ADMIN_PW_KEY.
Proof. intros H. apply (f_equal length) in H. vm_compute in H. discriminate. Qed.

Lemma setItem_fits k v st :
  fits k v st -> setItem k v st = Some (mkStorage (<[k := v]> (items st)) (quota st)).
Proof.
  unfold fits, setItem. intros H.
  apply N.leb_le in H. by rewrite H.
Qed.

Lemma setItem_throws k v st :
  ~ fits k v st -> setItem k v st = None.
Proof.
  unfold fits, setItem. intros H.
  destruct (N.leb_spec (usage (<[k:=v]> (items st))) (quota st)); [done | done].
Qed.

Lemma setItem_caught_fits k v st :
  fits k v st -> setItem_caught k v st = mkStorage (<[k := v]> (items st)) (quota st).
Proof. intros H. unfold setItem_caught. by rewrite setItem_fits. Qed.

Lemma setItem_caught_throws k v st :
  setItem k v st = None -> setItem_caught k v st = st.
Proof. intros H. unfold setItem_caught. by rewrite H. Qed.

Lemma setItem_caught_cases k v st :
  setItem_caught k v st = st \/
  setItem_caught k v st = mkStorage (<[k := v]> (items st)) (quota st).
Proof.
  unfold setItem_caught, setItem.
  destruct (usage _ <=? quota st)%N; [by right | by left].
Qed.

Lemma getItem_setItem_caught k v st :
  fits k v st -> getItem k (setItem_caught k v st) = Some v.
Proof.
  intros H. rewrite setItem_caught_fits by done.
  unfold getItem; simpl. apply lookup_insert_eq.
Qed.

Lemma getItem_setItem_caught_ne k k' v st :
  k <> k' -> getItem k' (setItem_caught k v st) = getItem k' st.
Proof.
  intros H. destruct (setItem_caught_cases k v st) as [-> | ->]; [done |].
  unfold getItem; simpl. by apply lookup_insert_ne.
Qed.

(** A write that fits lands the same way whether or not an earlier write
    under the same key went through. *)
Lemma setItem_caught_over k v w st :
  fits k v st ->
  setItem_caught k v (setItem_caught k w st) = mkStorage (<[k := v]> (items st)) (quota st).
Proof.
  intros H. destruct (setItem_caught_cases k w st) as [-> | ->].
  - by apply setItem_caught_fits.
  - rewrite setItem_caught_fits; simpl.
    + by rewrite insert_insert_eq.
    + unfold fits in *; simpl. by rewrite insert_insert_eq.
Qed.

(** ** Load-time resolution *)

Section Resolver.

Variable JSON_parse : jsstring -> option json.
Variable JSON_stringify : json -> jsstring.

Local Abbreviation resolve := (resolve JSON_parse JSON_stringify).
Local Abbreviation stored_list := (stored_list JSON_parse).
Local Abbreviation loadQuotes := (loadQuotes JSON_parse).
Local Abbreviation fetch_result := (fetch_result JSON_parse).
Local Abbreviation quotes_json l := (JSON_stringify (JArr l)).

Lemma nonempty_array_inv v :
  nonempty_array v = true -> exists x l, v = JArr (x :: l).
Proof.
  destruct v as [| | | |[|x l]|]; try discriminate. intros _. by exists x, l.
Qed.

Lemma stored_list_nonempty st L : stored_list st = Some L -> L <> [].
Proof.
  unfold stored_list. intros H.
  destruct (getItem STORAGE_KEY st) as [raw|]; [|done].
  destruct (str_truthy raw); [|done].
  destruct (JSON_parse raw) as [parsed|]; [|done].
  destruct (nonempty_array parsed) eqn:E; [|done].
  apply nonempty_array_inv in E as (x & l & ->). by injection H as <-.
Qed.

Lemma stored_list_present st raw L :
  getItem STORAGE_KEY st = Some raw -> raw <> [] ->
  JSON_parse raw = Some (JArr L) -> L <> [] ->
  stored_list st = Some L.
Proof.
  intros Hraw Hne Hparse HL. unfold stored_list. rewrite Hraw.
  destruct raw; [done|]. simpl. rewrite Hparse.
  destruct L; [done|]. reflexivity.
Qed.

Lemma loadQuotes_stored st :
  loadQuotes st = default DEFAULT_QUOTES (stored_list st).
Proof.
  unfold loadQuotes, stored_list.
  destruct (getItem STORAGE_KEY st) as [raw|]; [|done].
  destruct (str_truthy raw); [|done]. simpl.
  destruct (JSON_parse raw) as [parsed|]; [|done].
  by destruct (nonempty_array parsed).
Qed.

Lemma resolve_local_stored r s L :
  stored_list (store s) = Some L ->
  resolve_local JSON_parse r s =
    (true, exec (setQuotes L ;; setQuote (pickRandomQuote r L)) s).
Proof.
  unfold stored_list, resolve_local, bind, localStorage_getItem.
  destruct (getItem STORAGE_KEY (store s)) as [raw|]; [|done].
  destruct (str_truthy raw); [|done].
  destruct (JSON_parse raw) as [parsed|]; [|done].
  destruct (nonempty_array parsed); [|done].
  intros [= <-]. reflexivity.
Qed.

Lemma resolve_local_absent r s :
  stored_list (store s) = None ->
  resolve_local JSON_parse r s = (false, s).
Proof.
  unfold stored_list, resolve_local, bind, localStorage_getItem.
  destruct (getItem STORAGE_KEY (store s)) as [raw|]; [|done].
  destruct (str_truthy raw); [|done].
  destruct (JSON_parse raw) as [parsed|]; [|done].
  by destruct (nonempty_array parsed).
Qed.

(** The resolution when the store holds a list: no request is made, the
    stored list is adopted and written back twice (first commit, then the
    re-render). *)
Lemma resolve_stored r net c st L :
  stored_list st = Some L ->
  resolve r net c st =
    mkSys (mkApp L (pickRandomQuote r L) false locked [] [] (getAdminPw st))
          (setItem_caught STORAGE_KEY (quotes_json L)
             (setItem_caught STORAGE_KEY (quotes_json L) st))
          [] false.
Proof.
  intros H. unfold resolve, App_mount, exec, bind at 1 2, get_app.
  rewrite resolve_local_stored with (L := L) by done.
  cbn -[getAdminPw setItem_caught STORAGE_KEY pickRandomQuote].
  rewrite loadQuotes_stored, H. reflexivity.
Qed.

(** The resolution when the store holds no list: the request is made, the
    first commit writes the initial (default) list, and what happens next
    depends on the answer and on whether the component is still mounted. *)
Lemma resolve_absent r net c st :
  stored_list st = None ->
  resolve r net c st =
    let st1 := setItem_caught STORAGE_KEY (quotes_json DEFAULT_QUOTES) st in
    let ev := [EvFetch RAW_GITHUB_URL (u16 "no-store")] in
    if c then
      mkSys (mkApp DEFAULT_QUOTES (Some (JStr [])) false locked [] [] (getAdminPw st))
            st1 ev false
    else
      match fetch_result net with
      | Some R =>
          mkSys (mkApp R (pickRandomQuote r R) false locked [] [] (getAdminPw st))
                (setItem_caught STORAGE_KEY (quotes_json R)
                   (setItem_caught STORAGE_KEY (quotes_json R) st1))
                ev false
      | None =>
          mkSys (mkApp DEFAULT_QUOTES (pickRandomQuote r DEFAULT_QUOTES) false locked [] []
                   (getAdminPw st))
                (setItem_caught STORAGE_KEY (quotes_json DEFAULT_QUOTES) st1)
                ev false
      end.
Proof.
  intros H. unfold resolve, App_mount, exec, bind at 1 2, get_app.
  rewrite resolve_local_absent by done.
  cbn -[getAdminPw setItem_caught STORAGE_KEY RAW_GITHUB_URL pickRandomQuote
        DEFAULT_QUOTES u16].
  rewrite loadQuotes_stored, H.
  unfold resolve_remote, bind.
  destruct c, (fetch_result net) as [R|]; reflexivity.
Qed.

Lemma setItem_caught_twice k v w st :
  fits k v st ->
  setItem_caught k v (setItem_caught k v (setItem_caught k w st)) =
    mkStorage (<[k := v]> (items st)) (quota st).
Proof.
  intros H. rewrite (setItem_caught_over k v w st) by done.
  rewrite setItem_caught_fits; simpl.
  - by rewrite insert_insert_eq.
  - unfold fits in *; simpl. by rewrite insert_insert_eq.
Qed.

(** C2: a non-empty list held in local storage is what the resolution
    returns, whatever the remote source would answer, and no network
    request is issued (the log of host calls stays empty). *)
Theorem resolve_prefers_stored r net c st raw L :
  getItem STORAGE_KEY st = Some raw -> raw <> [] ->
  JSON_parse raw = Some (JArr L) -> L <> [] ->
  quotes (app (resolve r net c st)) = L /\
  count is_fetch (log (resolve r net c st)) = 0 /\
  log (resolve r net c st) = [].
Proof.
  intros Hraw Hne Hparse HL.
  rewrite (resolve_stored r net c st L) by eauto using stored_list_present.
  done.
Qed.

(** C3: with no stored list and a remote answer that is a non-empty array
    [R] (the component still mounted), the resolution returns [R]; when the
    write fits the quota the store then holds [R], and a later load from
    that store, whose text parses back to [R], returns [R] without a
    request. *)
Theorem resolve_adopts_remote r st body R :
  stored_list st = None ->
  JSON_parse body = Some (JArr R) -> R <> [] ->
  let s := resolve r (Response true body) false st in
  quotes (app s) = R /\
  (fits STORAGE_KEY (quotes_json R) st ->
   getItem STORAGE_KEY (store s) = Some (quotes_json R) /\
   (quotes_json R <> [] -> JSON_parse (quotes_json R) = Some (JArr R) ->
    forall r' net' c',
      quotes (app (resolve r' net' c' (store s))) = R /\
      count is_fetch (log (resolve r' net' c' (store s))) = 0)).
Proof.
  intros Habs Hparse HR s. subst s.
  rewrite resolve_absent by done. simpl.
  rewrite Hparse. destruct R as [|x R]; [done|]. simpl.
  split; [done|]. intros Hfits.
  rewrite setItem_caught_twice by done.
  assert (Hget : getItem STORAGE_KEY
            (mkStorage (<[STORAGE_KEY := quotes_json (x :: R)]> (items st)) (quota st))
          = Some (quotes_json (x :: R))).
  { unfold getItem; simpl. apply lookup_insert_eq. }
  split; [done|].
  intros Hne Hback r' net' c'.
  rewrite (resolve_stored r' net' c' _ (x :: R)) by eauto using stored_list_present.
  done.
Qed.

(** C1, on the code: with no stored list and no usable remote answer the
    resolution returns the built-in list, but the store does not stay
    empty: the persist effect writes the built-in list under the quotes
    key (at the first commit and again after the fallback). *)
Theorem default_fallback_persists r net st :
  stored_list st = None ->
  fetch_result net = None ->
  fits STORAGE_KEY (quotes_json DEFAULT_QUOTES) st ->
  let s := resolve r net false st in
  quotes (app s) = DEFAULT_QUOTES /\
  getItem STORAGE_KEY (store s) = Some (quotes_json DEFAULT_QUOTES).
Proof.
  intros Habs Hnet Hfits s. subst s.
  rewrite resolve_absent by done.
  cbn -[DEFAULT_QUOTES STORAGE_KEY setItem_caught]. rewrite Hnet.
  split; [done|]. cbn -[DEFAULT_QUOTES STORAGE_KEY setItem_caught].
  rewrite setItem_caught_over by done.
  unfold getItem; cbn -[DEFAULT_QUOTES STORAGE_KEY]. apply lookup_insert_eq.
Qed.

Lemma fetch_result_Some net l :
  fetch_result net = Some l <->
  exists body, net = Response true body /\ JSON_parse body = Some (JArr l) /\ l <> [].
Proof.
  unfold fetch_result. split.
  - destruct net as [|ok body]; [done|].
    destruct ok; [|done]. simpl.
    destruct (JSON_parse body) as [data|] eqn:E; [|done].
    destruct (nonempty_array data) eqn:E'; [|done].
    apply nonempty_array_inv in E' as (x & l' & ->). intros [= <-].
    by exists body.
  - intros (body & -> & -> & Hl). simpl. by destruct l.
Qed.

(** C4, as the code has it: the fetch yields a list exactly when the
    request met no transport error, the response is [ok] and its body
    parses to a non-empty array; the elements are not inspected. *)
Theorem fetch_accepts_exactly net s l :
  fst (fetchQuotesFromGithub JSON_parse net s) = Some l <->
  exists body, net = Response true body /\ JSON_parse body = Some (JArr l) /\ l <> [].
Proof. unfold fetchQuotesFromGithub, bind, emit, ret. simpl. apply fetch_result_Some. Qed.

End Resolver.

(** ** Admin session *)

Section Admin.

Variable JSON_parse : jsstring -> option json.
Variable JSON_stringify : json -> jsstring.

Local Abbreviation handle := (handle JSON_stringify).
Local Abbreviation commit := (commit JSON_stringify).
Local Abbreviation authenticates := (authenticates JSON_stringify).
Local Abbreviation quotes_json l := (JSON_stringify (JArr l)).

Lemma exec_bind {A B} (m : M A) (k : A -> M B) s :
  exec (bind m k) s = exec (k (fst (m s))) (snd (m s)).
Proof. unfold exec, bind. by destruct (m s). Qed.

Lemma exec_handle h s : exec (handle h) s = exec commit (exec h s).
Proof. unfold handle. by rewrite exec_bind. Qed.

Lemma exec_commit s :
  exec commit s =
    mkSys (app s)
          (if dirty s then setItem_caught STORAGE_KEY (quotes_json (quotes (app s))) (store s)
           else store s)
          (log s) false.
Proof. unfold exec, commit. destruct s as [a st l []]; reflexivity. Qed.

Lemma getAdminPw_quotes_write v st :
  getAdminPw (setItem_caught STORAGE_KEY v st) = getAdminPw st.
Proof.
  unfold getAdminPw. by rewrite getItem_setItem_caught_ne by apply keys_distinct.
Qed.

Lemma getAdminPw_commit s : getAdminPw (store (exec commit s)) = getAdminPw (store s).
Proof. rewrite exec_commit. simpl. destruct (dirty s); [apply getAdminPw_quotes_write | done]. Qed.

Lemma str_eqb_eq a b : str_eqb a b = true <-> a = b.
Proof. unfold str_eqb. apply bool_decide_eq_true. Qed.

Lemma authenticates_eq s pw : authenticates s pw = str_eqb pw (getAdminPw (store s)).
Proof.
  unfold authenticates, attempt_unlock.
  rewrite exec_bind, exec_bind.
  set (s1 := snd (handle openAdmin s)).
  set (s2 := snd (handle (setPwInput pw) s1)).
  assert (H1 : getAdminPw (store s1) = getAdminPw (store s) /\ authStep (app s1) = locked).
  { subst s1. change (snd (?m s)) with (exec m s). rewrite exec_handle.
    rewrite getAdminPw_commit, exec_commit. done. }
  destruct H1 as [H1 L1].
  assert (H2 : getAdminPw (store s2) = getAdminPw (store s) /\ pwInput (app s2) = pw
               /\ authStep (app s2) = locked).
  { subst s2. change (snd (?m s1)) with (exec m s1). rewrite exec_handle.
    rewrite getAdminPw_commit, exec_commit. by rewrite <- H1, <- L1. }
  destruct H2 as (H2 & H3 & L2).
  rewrite exec_handle, exec_commit. simpl.
  unfold tryUnlock, exec, bind, get_app. simpl. rewrite H2, H3.
  destruct (str_eqb pw (getAdminPw (store s))); simpl; [done|by rewrite L2].
Qed.

Lemma exec_handleAddQuote s :
  exec handleAddQuote s =
    let a := app s in
    let t := trim (newQuoteText a) in
    if str_truthy t then
      mkSys (mkApp (JStr t :: quotes a) (quote a) (adminOpen a) (authStep a) (pwInput a) []
               (adminPwState a))
            (store s) (log s ++ [EvAlert (u16 "Quote added (saved locally).")]) true
    else s.
Proof.
  unfold handleAddQuote, exec, bind, get_app. simpl.
  by destruct (str_truthy (trim (newQuoteText (app s)))).
Qed.

Lemma exec_handleDeleteQuote answer idx s :
  exec (handleDeleteQuote answer idx) s =
    let a := app s in
    let asked := log s ++ [EvConfirm (u16 "Delete this quote?")] in
    if answer then
      mkSys (mkApp (splice1 idx (quotes a)) (quote a) (adminOpen a) (authStep a) (pwInput a)
               (newQuoteText a) (adminPwState a))
            (store s) (asked ++ [EvAlert (u16 "Deleted (saved locally).")]) true
    else mkSys a (store s) asked (dirty s).
Proof. unfold handleDeleteQuote, exec, bind, get_app. by destruct answer. Qed.

Lemma exec_handleResetToDefault answer s :
  exec (handleResetToDefault JSON_stringify answer) s =
    let a := app s in
    let asked := log s ++ [EvConfirm (u16 "Reset all quotes to the original default list? This will overwrite local edits.")] in
    if answer then
      mkSys (mkApp DEFAULT_QUOTES (quote a) (adminOpen a) (authStep a) (pwInput a)
               (newQuoteText a) (adminPwState a))
            (setItem_caught STORAGE_KEY (quotes_json DEFAULT_QUOTES) (store s))
            (asked ++ [EvAlert (u16 "Reset complete.")]) true
    else mkSys a (store s) asked (dirty s).
Proof. unfold handleResetToDefault, exec, bind, get_app. by destruct answer. Qed.

Lemma exec_handleSetPw s :
  exec handleSetPw s =
    let a := app s in
    let t := trim (pwInput a) in
    if (length t <? 4)%nat then
      mkSys a (store s)
            (log s ++ [EvAlert (u16 "Password must be at least 4 characters.")]) (dirty s)
    else
      mkSys (mkApp (quotes a) (quote a) (adminOpen a) (authStep a) [] (newQuoteText a) t)
            (setItem_caught ADMIN_PW_KEY t (store s))
            (log s ++ [EvAlert (u16 "Password updated.")]) (dirty s).
Proof.
  unfold handleSetPw, exec, bind, get_app. simpl.
  by destruct (length (trim (pwInput (app s))) <? 4)%nat.
Qed.

Lemma splice1_head x l : splice1 0 (x :: l) = l.
Proof. reflexivity. Qed.

Lemma length_splice1 idx l : length l - 1 <= length (splice1 idx l).
Proof.
  unfold splice1. generalize (splice_start idx (length l)) as i.
  induction l as [|x l IH]; intros [|i]; simpl; try lia.
  specialize (IH i). lia.
Qed.

Lemma DEFAULT_QUOTES_length : length DEFAULT_QUOTES = 24.
Proof. reflexivity. Qed.

(** C7: adding a quote whose trimmed text is non-empty prepends it, and
    deleting (confirmed) at index 0 right after gives back the list as it
    was; a confirmed reset yields the built-in list of 24 quotes from any
    state. *)
Theorem add_then_delete_restores s :
  let t := trim (newQuoteText (app s)) in
  (t <> [] ->
   let s1 := exec (handle handleAddQuote) s in
   quotes (app s1) = JStr t :: quotes (app s) /\
   quotes (app (exec (handle (handleDeleteQuote true 0)) s1)) = quotes (app s)) /\
  quotes (app (exec (handle (handleResetToDefault JSON_stringify true)) s)) = DEFAULT_QUOTES /\
  length DEFAULT_QUOTES = 24.
Proof.
  intros t. split; [|split; [|apply DEFAULT_QUOTES_length]].
  - intros Ht s1. subst s1.
    repeat rewrite ?exec_handle, ?exec_commit, ?exec_handleDeleteQuote,
      ?exec_handleAddQuote.
    cbv zeta. subst t. destruct (trim (newQuoteText (app s))) as [|c t']; [done|].
    simpl. done.
  - by rewrite exec_handle, exec_commit, exec_handleResetToDefault.
Qed.

(** C8: a new secret shorter than 4 after trimming is refused with a
    notice and the old secret still authenticates; one of trimmed length 4
    or more that differs from the old secret, its write fitting the store,
    replaces it: the old secret no longer authenticates, the trimmed new
    one does. *)
Theorem secret_update s :
  let t := trim (pwInput (app s)) in
  let old := getAdminPw (store s) in
  let s' := exec (handle handleSetPw) s in
  (length t < 4 ->
   log s' = log s ++ [EvAlert (u16 "Password must be at least 4 characters.")] /\
   getAdminPw (store s') = old /\
   authenticates s' old = true) /\
  (4 <= length t -> fits ADMIN_PW_KEY t (store s) ->
   getAdminPw (store s') = t /\
   authenticates s' t = true /\
   (t <> old -> authenticates s' old = false)).
Proof.
  intros t old s'. subst s'.
  rewrite !authenticates_eq, exec_handle, getAdminPw_commit, exec_commit,
    exec_handleSetPw. simpl. fold t.
  split.
  - intros Hlt. apply Nat.ltb_lt in Hlt. rewrite Hlt. simpl.
    split; [done|]. split; [done|]. by apply str_eqb_eq.
  - intros Hge Hfits. apply Nat.ltb_ge in Hge. rewrite Hge. simpl.
    assert (Hnew : getAdminPw (setItem_caught ADMIN_PW_KEY t (store s)) = t).
    { unfold getAdminPw. rewrite getItem_setItem_caught by done.
      apply Nat.ltb_ge in Hge. destruct t; [simpl in Hge; lia | done]. }
    rewrite Hnew. split; [done|]. split.
    + by apply str_eqb_eq.
    + intros Hne. unfold str_eqb. apply bool_decide_eq_false. congruence.
Qed.

(** C9, on the code: when the write of the new secret throws, the
    handler still reports success and sets the in-memory copy, but
    authentication reads the store: exactly the previously effective
    secret authenticates, the new one only if it equals it. *)
Theorem failed_secret_write_keeps_old s :
  let t := trim (pwInput (app s)) in
  let s' := exec (handle handleSetPw) s in
  4 <= length t -> setItem ADMIN_PW_KEY t (store s) = None ->
  log s' = log s ++ [EvAlert (u16 "Password updated.")] /\
  adminPwState (app s') = t /\
  forall pw, authenticates s' pw = str_eqb pw (getAdminPw (store s)).
Proof.
  intros t s' Hge Hthrow. subst s'.
  rewrite exec_handle, exec_commit, exec_handleSetPw. simpl. fold t.
  apply Nat.ltb_ge in Hge. rewrite Hge. simpl.
  split; [done|]. split; [done|]. intros pw.
  rewrite authenticates_eq. simpl.
  rewrite (setItem_caught_throws ADMIN_PW_KEY t (store s)) by done.
  destruct (dirty s); [by rewrite getAdminPw_quotes_write | done].
Qed.

(** C10: [getAdminPw] yields "basedfin" both when no secret is stored and
    when the stored secret is the empty string, and the two stores
    authenticate the same candidates. *)
Theorem empty_secret_reads_as_default st0 st1 :
  getItem ADMIN_PW_KEY st0 = None ->
  getItem ADMIN_PW_KEY st1 = Some [] ->
  getAdminPw st0 = u16 "basedfin" /\
  getAdminPw st1 = u16 "basedfin" /\
  forall a l d pw,
    authenticates (mkSys a st0 l d) pw = authenticates (mkSys a st1 l d) pw /\
    authenticates (mkSys a st1 l d) pw = str_eqb pw (u16 "basedfin").
Proof.
  intros H0 H1.
  assert (E0 : getAdminPw st0 = u16 "basedfin") by (unfold getAdminPw; by rewrite H0).
  assert (E1 : getAdminPw st1 = u16 "basedfin") by (unfold getAdminPw; by rewrite H1).
  split; [done|]. split; [done|]. intros a l d pw.
  rewrite !authenticates_eq. simpl. by rewrite E0, E1.
Qed.

(** C5, as the code has it: the list is non-empty after the load-time
    resolution, the built-in list of 24 quotes standing in when neither the
    store nor the remote source yields a non-empty array; add and reset
    keep it non-empty; a delete keeps it non-empty while at least two
    quotes remain, and a declined delete changes nothing. *)
Theorem quotes_nonempty_while_two_remain :
  (forall r net c st,
     quotes (app (resolve JSON_parse JSON_stringify r net c st)) <> []) /\
  (forall r net c st,
     stored_list JSON_parse st = None -> fetch_result JSON_parse net = None ->
     quotes (app (resolve JSON_parse JSON_stringify r net c st)) = DEFAULT_QUOTES /\
     length DEFAULT_QUOTES = 24) /\
  (forall s, quotes (app s) <> [] ->
     quotes (app (exec (handle handleAddQuote) s)) <> []) /\
  (forall s answer, quotes (app s) <> [] ->
     quotes (app (exec (handle (handleResetToDefault JSON_stringify answer)) s)) <> []) /\
  (forall s answer idx, 2 <= length (quotes (app s)) ->
     quotes (app (exec (handle (handleDeleteQuote answer idx)) s)) <> []) /\
  (forall s idx,
     quotes (app (exec (handle (handleDeleteQuote false idx)) s)) = quotes (app s)).
Proof.
  split; [|split; [|split; [|split; [|split]]]].
  - intros r net c st.
    destruct (stored_list JSON_parse st) as [L|] eqn:E.
    + rewrite (resolve_stored _ _ r net c st L) by done. simpl.
      by eapply stored_list_nonempty.
    + rewrite resolve_absent by done. cbv zeta.
      destruct c; [done|].
      destruct (fetch_result JSON_parse net) as [R|] eqn:F; [|done]. simpl.
      apply fetch_result_Some in F as (body & _ & _ & HR). done.
  - intros r net c st Habs Hnet.
    rewrite resolve_absent by done. cbv zeta. rewrite Hnet.
    by destruct c.
  - intros s Hne. rewrite exec_handle, exec_commit, exec_handleAddQuote. cbv zeta.
    by destruct (str_truthy _).
  - intros s answer Hne.
    rewrite exec_handle, exec_commit, exec_handleResetToDefault. cbv zeta.
    by destruct answer.
  - intros s answer idx Hlen.
    rewrite exec_handle, exec_commit, exec_handleDeleteQuote. cbv zeta.
    destruct answer; simpl.
    + pose proof (length_splice1 idx (quotes (app s))) as Hd.
      intros E. rewrite E in Hd. simpl in Hd. lia.
    + intros E. rewrite E in Hlen. simpl in Hlen. lia.
  - intros s idx. by rewrite exec_handle, exec_commit, exec_handleDeleteQuote.
Qed.

End Admin.

(** ** Cast dispatch *)

Section Cast.

Lemma exec_tryOpenFarcasterComposer w text s :
  exec (tryOpenFarcasterComposer w text) s =
    mkSys (app s) (store s) (log s ++ cast_calls w text) (dirty s).
Proof.
  unfold tryOpenFarcasterComposer, cast_calls, exec, bind, alert, emit, ret.
  destruct (hostComposer w) as [[|]|], (parent_postMessage w), (clipboard w) as [[|]|];
    simpl; rewrite <- ?app_assoc; reflexivity.
Qed.

Lemma calls_since_dispatch w text s :
  calls_since s (exec (tryOpenFarcasterComposer w text) s) = cast_calls w text.
Proof.
  rewrite exec_tryOpenFarcasterComposer. unfold calls_since. simpl.
  by rewrite drop_app_length.
Qed.

(** C6, as the code has it: a host composer that is present is called
    with the text, and if it returns that is the only call made; when it
    is absent, or present but throwing, the message OPEN_COMPOSER with the
    text is posted once to the parent frame, targeting any origin, and
    nothing follows if the post returns; after a post that threw the
    clipboard write is tried, followed by the notice when it succeeds and
    by the prompt when it fails, and the prompt alone is shown when there
    is no clipboard.  So the clipboard is tried only after a post that
    threw, the prompt shown only after that when the clipboard is missing
    or its write fails. *)
Theorem dispatch_order w text s :
  let calls := calls_since s (exec (tryOpenFarcasterComposer w text) s) in
  let post := EvPostMessage (OPEN_COMPOSER text) (u16 "*") in
  let after_failed_post :=
    match clipboard w with
    | Some Returns =>
        [EvClipboardWrite text;
         EvAlert (u16 "Quote copied to clipboard. Paste it into Farcaster to cast.")]
    | Some Throws => [EvClipboardWrite text; EvPrompt (u16 "Copy this quote:") text]
    | None => [EvPrompt (u16 "Copy this quote:") text]
    end in
  (hostComposer w = Some Returns -> calls = [EvOpenComposer text]) /\
  (hostComposer w = Some Throws -> parent_postMessage w = Returns ->
   calls = [EvOpenComposer text; post]) /\
  (hostComposer w = None -> parent_postMessage w = Returns -> calls = [post]) /\
  (hostComposer w <> Some Returns -> count is_post calls = 1) /\
  (count is_clipboard calls <> 0 ->
   hostComposer w <> Some Returns /\ parent_postMessage w = Throws) /\
  (count is_prompt calls <> 0 ->
   parent_postMessage w = Throws /\ clipboard w <> Some Returns) /\
  (hostComposer w = Some Throws -> parent_postMessage w = Throws ->
   calls = EvOpenComposer text :: post :: after_failed_post) /\
  (hostComposer w = None -> parent_postMessage w = Throws ->
   calls = post :: after_failed_post) /\
  (hostComposer w = None -> count is_open calls = 0) /\
  (forall f, hostComposer w = Some f -> calls !! 0 = Some (EvOpenComposer text)) /\
  (hostComposer w <> Some Returns -> post ∈ calls).
Proof.
  intros calls post after_failed_post. subst calls post after_failed_post.
  rewrite calls_since_dispatch. unfold cast_calls.
  destruct (hostComposer w) as [[|]|], (parent_postMessage w), (clipboard w) as [[|]|];
    repeat split; try done; try (intros; set_solver); vm_compute; done.
Qed.

End Cast.

(** ** The results on concrete inputs *)

Import Concrete.

Lemma resolve_prefers_stored_witness :
  quotes (app (load gm_store)) = [gm; gn] /\
  count is_fetch (log (load gm_store)) = 0 /\
  log (load gm_store) = [].
Proof.
  apply (resolve_prefers_stored RefJSON.parse RefJSON.stringify half NetworkError false
           gm_store (RefJSON.stringify (JArr [gm; gn])) [gm; gn]).
  - vm_compute. reflexivity.
  - vm_compute. discriminate.
  - vm_compute. reflexivity.
  - discriminate.
Defined.

Lemma resolve_adopts_remote_witness :
  let s := resolve RefJSON.parse RefJSON.stringify half
             (Response true (RefJSON.stringify (JArr [gm; gn]))) false (emptyStorage 5000) in
  quotes (app s) = [gm; gn] /\
  getItem STORAGE_KEY (store s) = Some (RefJSON.stringify (JArr [gm; gn])) /\
  quotes (app (load (store s))) = [gm; gn] /\
  count is_fetch (log (load (store s))) = 0.
Proof.
  intros s.
  destruct (resolve_adopts_remote RefJSON.parse RefJSON.stringify half (emptyStorage 5000)
              (RefJSON.stringify (JArr [gm; gn])) [gm; gn]) as (H1 & H).
  - vm_compute. reflexivity.
  - vm_compute. reflexivity.
  - discriminate.
  - destruct H as (H2 & H3).
    + vm_compute. discriminate.
    + split; [exact H1|]. split; [exact H2|].
      apply H3.
      * vm_compute. discriminate.
      * vm_compute. reflexivity.
Defined.

Lemma default_fallback_persists_witness :
  getItem STORAGE_KEY (emptyStorage 5000) = None /\
  quotes (app (load (emptyStorage 5000))) = DEFAULT_QUOTES /\
  getItem STORAGE_KEY (store (load (emptyStorage 5000))) =
    Some (RefJSON.stringify (JArr DEFAULT_QUOTES)).
Proof.
  split; [reflexivity|].
  apply (default_fallback_persists RefJSON.parse RefJSON.stringify half NetworkError
           (emptyStorage 5000)).
  - vm_compute. reflexivity.
  - reflexivity.
  - vm_compute. discriminate.
Defined.

(** C4, counterexample: an [ok] response whose body is the array of the
    number 1 and the empty string is accepted as a quote list, though
    neither element is a non-empty string. *)
Lemma fetch_accepts_non_quotes :
  fst (fetchQuotesFromGithub RefJSON.parse
         (Response true (RefJSON.stringify (JArr [JNum 1; JStr []])))
         (initialSys RefJSON.parse (emptyStorage 5000)))
    = Some [JNum 1; JStr []] /\
  forallb is_quote [JNum 1; JStr []] = false.
Proof. split; vm_compute; reflexivity. Qed.

Lemma fetch_accepts_exactly_witness :
  fst (fetchQuotesFromGithub RefJSON.parse
         (Response true (RefJSON.stringify (JArr [gm; gn])))
         (initialSys RefJSON.parse (emptyStorage 5000)))
    = Some [gm; gn].
Proof.
  apply (fetch_accepts_exactly RefJSON.parse).
  exists (RefJSON.stringify (JArr [gm; gn])).
  split; [reflexivity|]. split; [vm_compute; reflexivity | discriminate].
Defined.

(** C5, counterexample: after loading the one-quote list, a confirmed
    delete at index 0 leaves the list empty. *)
Lemma delete_only_quote_empties :
  quotes (app (load one_store)) = [gm] /\
  quotes (app (exec (handle RefJSON.stringify (handleDeleteQuote true 0)) (load one_store)))
    = [].
Proof. split; vm_compute; reflexivity. Qed.

Lemma quotes_nonempty_while_two_remain_witness :
  2 <= length (quotes (app (load gm_store))) /\
  quotes (app (exec (handle RefJSON.stringify (handleDeleteQuote true 0)) (load gm_store)))
    <> [].
Proof.
  split; [vm_compute; lia|].
  apply (quotes_nonempty_while_two_remain RefJSON.parse RefJSON.stringify).
  vm_compute. lia.
Defined.

(** C6, counterexample: the host composer is present, yet a message is
    posted to the parent frame, because the composer threw. *)
Lemma throwing_composer_falls_through :
  let s := load gm_store in
  let calls := calls_since s (exec (tryOpenFarcasterComposer throwing_host (u16 "gm")) s) in
  hostComposer throwing_host = Some Throws /\
  calls = [EvOpenComposer (u16 "gm");
           EvPostMessage (OPEN_COMPOSER (u16 "gm")) (u16 "*")] /\
  count is_post calls = 1.
Proof. vm_compute. done. Qed.

Lemma dispatch_order_witness :
  let s := load gm_store in
  let w := mkWindow GFalsy GFalsy Returns None in
  hostComposer w = None /\ parent_postMessage w = Returns /\
  calls_since s (exec (tryOpenFarcasterComposer w (u16 "gm")) s) =
    [EvPostMessage (OPEN_COMPOSER (u16 "gm")) (u16 "*")].
Proof.
  intros s w. split; [reflexivity|]. split; [reflexivity|].
  apply (dispatch_order w (u16 "gm") s); reflexivity.
Defined.

Lemma add_then_delete_restores_witness :
  let s := exec (handle RefJSON.stringify (setNewQuoteText (u16 "  wagmi "))) (load gm_store) in
  let s1 := exec (handle RefJSON.stringify handleAddQuote) s in
  trim (newQuoteText (app s)) = u16 "wagmi" /\
  quotes (app s1) = JStr (u16 "wagmi") :: [gm; gn] /\
  quotes (app (exec (handle RefJSON.stringify (handleDeleteQuote true 0)) s1)) = [gm; gn].
Proof.
  intros s s1. split; [vm_compute; reflexivity|].
  apply (add_then_delete_restores RefJSON.stringify s).
  vm_compute. discriminate.
Defined.

Lemma secret_update_witness :
  (let s := typed "ab" (emptyStorage 5000) in
   let s' := exec (handle RefJSON.stringify handleSetPw) s in
   getAdminPw (store s') = u16 "basedfin" /\
   authenticates RefJSON.stringify s' (u16 "basedfin") = true) /\
  (let s := typed " abcd " (emptyStorage 5000) in
   let s' := exec (handle RefJSON.stringify handleSetPw) s in
   getAdminPw (store s') = u16 "abcd" /\
   authenticates RefJSON.stringify s' (u16 "abcd") = true /\
   authenticates RefJSON.stringify s' (u16 "basedfin") = false).
Proof.
  split.
  - intros s s'.
    destruct (secret_update RefJSON.stringify s) as [H _].
    apply H. vm_compute. lia.
  - intros s s'.
    destruct (secret_update RefJSON.stringify s) as [_ H].
    destruct H as (H1 & H2 & H3).
    + vm_compute. lia.
    + vm_compute. discriminate.
    + split; [exact H1|]. split; [exact H2|].
      apply H3. vm_compute. discriminate.
Defined.

Lemma failed_secret_write_keeps_old_witness :
  let s := typed "abcd" (emptyStorage 0) in
  let s' := exec (handle RefJSON.stringify handleSetPw) s in
  setItem ADMIN_PW_KEY (u16 "abcd") (store s) = None /\
  log s' = log s ++ [EvAlert (u16 "Password updated.")] /\
  adminPwState (app s') = u16 "abcd" /\
  authenticates RefJSON.stringify s' (u16 "abcd") = false /\
  authenticates RefJSON.stringify s' (u16 "basedfin") = true.
Proof.
  intros s s'. split; [vm_compute; reflexivity|].
  destruct (failed_secret_write_keeps_old RefJSON.stringify s) as (H1 & H2 & H3).
  - vm_compute. lia.
  - vm_compute. reflexivity.
  - split; [exact H1|]. split; [exact H2|].
    split; rewrite H3; vm_compute; reflexivity.
Defined.

Lemma empty_secret_reads_as_default_witness :
  getAdminPw (emptyStorage 5000) = u16 "basedfin" /\
  getAdminPw blank_secret_store = u16 "basedfin" /\
  authenticates RefJSON.stringify (initialSys RefJSON.parse blank_secret_store)
    (u16 "basedfin") = true.
Proof.
  destruct (empty_secret_reads_as_default RefJSON.stringify
              (emptyStorage 5000) blank_secret_store) as (H0 & H1 & H2).
  - reflexivity.
  - vm_compute. reflexivity.
  - split; [exact H0|]. split; [exact H1|].
    unfold initialSys. rewrite (proj2 (H2 _ _ _ _)). vm_compute. reflexivity.
Defined.


(** * Further properties of the component *)

(** ** Loading and saving the list *)

Section Loading.

Variable JSON_parse : jsstring -> option json.
Variable JSON_stringify : json -> jsstring.

Local Abbreviation resolve := (resolve JSON_parse JSON_stringify).
Local Abbreviation stored_list := (stored_list JSON_parse).
Local Abbreviation loadQuotes := (loadQuotes JSON_parse).
Local Abbreviation fetch_result := (fetch_result JSON_parse).
Local Abbreviation saveQuotes := (saveQuotes JSON_stringify).
Local Abbreviation quotes_json l := (JSON_stringify (JArr l)).

Lemma DEFAULT_QUOTES_nonempty : DEFAULT_QUOTES <> [].
Proof. discriminate. Qed.

Lemma stored_list_written k st L :
  quotes_json L <> [] -> JSON_parse (quotes_json L) = Some (JArr L) ->
  stored_list (mkStorage (<[STORAGE_KEY := quotes_json L]> k) st) =
    match L with [] => None | _ :: _ => Some L end.
Proof.
  intros Hne Hparse. unfold stored_list, getItem. simpl.
  rewrite lookup_insert_eq.
  destruct (quotes_json L) eqn:E; [done|]. simpl. rewrite Hparse.
  by destruct L.
Qed.

(** X3: [loadQuotes] never returns an empty list: it returns the stored
    array when the entry is non-empty text that parses to a non-empty
    array, and the built-in list when the entry is missing, empty,
    unparsable, not an array or an empty array. *)
Theorem loadQuotes_cases st :
  loadQuotes st <> [] /\
  (forall raw L,
     getItem STORAGE_KEY st = Some raw -> raw <> [] ->
     JSON_parse raw = Some (JArr L) -> L <> [] -> loadQuotes st = L) /\
  (getItem STORAGE_KEY st = None -> loadQuotes st = DEFAULT_QUOTES) /\
  (getItem STORAGE_KEY st = Some [] -> loadQuotes st = DEFAULT_QUOTES) /\
  (forall raw,
     getItem STORAGE_KEY st = Some raw -> JSON_parse raw = None ->
     loadQuotes st = DEFAULT_QUOTES) /\
  (forall raw v,
     getItem STORAGE_KEY st = Some raw -> JSON_parse raw = Some v ->
     nonempty_array v = false -> loadQuotes st = DEFAULT_QUOTES).
Proof.
  split; [|split; [|split; [|split; [|split]]]].
  - rewrite loadQuotes_stored.
    destruct (stored_list st) as [L|] eqn:E; simpl.
    + by eapply stored_list_nonempty.
    + apply DEFAULT_QUOTES_nonempty.
  - intros raw L H1 H2 H3 H4. rewrite loadQuotes_stored.
    by rewrite (stored_list_present JSON_parse st raw L).
  - intros H. unfold loadQuotes. by rewrite H.
  - intros H. unfold loadQuotes. by rewrite H.
  - intros raw H1 H2. unfold loadQuotes. rewrite H1, H2. by destruct (str_truthy raw).
  - intros raw v H1 H2 H3. unfold loadQuotes. rewrite H1, H2, H3.
    by destruct (str_truthy raw).
Qed.

(** X4: [saveQuotes] followed by [loadQuotes] gives the list back when the
    write fits the quota and the text parses back, except that a saved
    empty list reads back as the built-in list; the save touches no other
    key, no component state and makes no host call; a write that throws
    leaves everything as it was. *)
Theorem saveQuotes_then_loadQuotes s L :
  let s' := exec (saveQuotes L) s in
  app s' = app s /\ log s' = log s /\
  (forall k, k <> STORAGE_KEY -> getItem k (store s') = getItem k (store s)) /\
  (fits STORAGE_KEY (quotes_json L) (store s) ->
   quotes_json L <> [] -> JSON_parse (quotes_json L) = Some (JArr L) ->
   loadQuotes (store s') = match L with [] => DEFAULT_QUOTES | _ :: _ => L end) /\
  (setItem STORAGE_KEY (quotes_json L) (store s) = None -> s' = s).
Proof.
  intros s'. subst s'. unfold saveQuotes, try_setItem, exec. simpl.
  split; [done|]. split; [done|]. split; [|split].
  - intros k Hk. by apply getItem_setItem_caught_ne.
  - intros Hfits Hne Hparse. rewrite setItem_caught_fits by done.
    rewrite loadQuotes_stored, stored_list_written by done. by destruct L.
  - intros Hthrow. rewrite setItem_caught_throws by done. by destruct s.
Qed.

Lemma resolve_log r net c st :
  log (resolve r net c st) =
    match stored_list st with
    | Some _ => []
    | None => [EvFetch RAW_GITHUB_URL (u16 "no-store")]
    end.
Proof.
  destruct (stored_list st) as [L|] eqn:E.
  - by rewrite (resolve_stored _ _ r net c st L).
  - rewrite resolve_absent by done. cbv zeta.
    destruct c; [done|]. by destruct (fetch_result net).
Qed.

(** X5: a load makes one request, to the fixed URL with the cache
    bypassed, exactly when the store holds no list, and no request
    otherwise; it makes no other host call (no dialog) in either case. *)
Theorem resolve_requests r net c st :
  (stored_list st = None <->
   log (resolve r net c st) = [EvFetch RAW_GITHUB_URL (u16 "no-store")]) /\
  (stored_list st <> None <-> log (resolve r net c st) = []) /\
  count is_fetch (log (resolve r net c st)) <= 1.
Proof.
  rewrite resolve_log. destruct (stored_list st) as [L|]; simpl.
  - split; [split; discriminate|]. split; [done|]. unfold count. simpl. lia.
  - split; [done|]. split; [split; [done | discriminate]|]. reflexivity.
Qed.

(** X6: when the component is unmounted before the fetch settles, the
    answer is discarded, however valid: the state stays the one of the
    first render (built-in list, blank quote) and the store holds at most
    the write of the first commit. *)
Theorem resolve_cancelled r net st :
  stored_list st = None ->
  let s := resolve r net true st in
  quotes (app s) = DEFAULT_QUOTES /\
  quote (app s) = Some (JStr []) /\
  app s = initialState JSON_parse st /\
  store s = setItem_caught STORAGE_KEY (quotes_json DEFAULT_QUOTES) st.
Proof.
  intros Habs s. subst s. rewrite resolve_absent by done. cbv zeta.
  unfold initialState. rewrite loadQuotes_stored, Habs. done.
Qed.

Lemma resolve_quotes_nonempty r net c st : quotes (app (resolve r net c st)) <> [].
Proof.
  destruct (stored_list st) as [L|] eqn:E.
  - rewrite (resolve_stored _ _ r net c st L) by done. simpl.
    by eapply stored_list_nonempty.
  - rewrite resolve_absent by done. cbv zeta.
    destruct c; [apply DEFAULT_QUOTES_nonempty|].
    destruct (fetch_result net) as [R|] eqn:F; simpl.
    + by apply fetch_result_Some in F as (body & _ & _ & HR).
    + apply DEFAULT_QUOTES_nonempty.
Qed.

Lemma resolve_store_fits r net st :
  let L := quotes (app (resolve r net false st)) in
  fits STORAGE_KEY (quotes_json L) st ->
  store (resolve r net false st) =
    mkStorage (<[STORAGE_KEY := quotes_json L]> (items st)) (quota st).
Proof.
  destruct (stored_list st) as [L0|] eqn:E.
  - rewrite (resolve_stored _ _ r net false st L0) by done. simpl. intros Hfits.
    by rewrite setItem_caught_over.
  - rewrite resolve_absent by done. cbv zeta.
    destruct (fetch_result net) as [R|] eqn:F; simpl; intros Hfits.
    + by rewrite setItem_caught_twice.
    + by rewrite setItem_caught_over.
Qed.

(** X8: whichever source a load took its list from (store, remote or the
    built-in list), once its write fits the quota the store holds that
    list, and every later load from that store, the text parsing back,
    returns the same list without a request. *)
Theorem reload_is_stable r net st :
  let s := resolve r net false st in
  let L := quotes (app s) in
  fits STORAGE_KEY (quotes_json L) st ->
  quotes_json L <> [] -> JSON_parse (quotes_json L) = Some (JArr L) ->
  getItem STORAGE_KEY (store s) = Some (quotes_json L) /\
  forall r' net' c',
    quotes (app (resolve r' net' c' (store s))) = L /\
    log (resolve r' net' c' (store s)) = [].
Proof.
  intros s L Hfits Hne Hparse. subst s.
  rewrite resolve_store_fits by done. fold L.
  assert (HL : L <> []) by apply resolve_quotes_nonempty.
  assert (Hst : stored_list (mkStorage (<[STORAGE_KEY := quotes_json L]> (items st))
                               (quota st)) = Some L).
  { rewrite stored_list_written by done. by destruct L. }
  split.
  - unfold getItem. simpl. apply lookup_insert_eq.
  - intros r' net' c'. by rewrite (resolve_stored _ _ r' net' c' _ L).
Qed.

(** X9: loading never alters the admin secret: the secret read from the
    store after a load is the one read before. *)
Theorem resolve_keeps_secret r net c st :
  getAdminPw (store (resolve r net c st)) = getAdminPw st /\
  getItem ADMIN_PW_KEY (store (resolve r net c st)) = getItem ADMIN_PW_KEY st /\
  adminPwState (app (resolve r net c st)) = getAdminPw st.
Proof.
  assert (K := keys_distinct).
  destruct (stored_list st) as [L|] eqn:E.
  - rewrite (resolve_stored _ _ r net c st L) by done. simpl.
    unfold getAdminPw. by rewrite !getItem_setItem_caught_ne.
  - rewrite resolve_absent by done. cbv zeta.
    destruct c; [|destruct (fetch_result net)]; simpl;
      unfold getAdminPw; by rewrite !getItem_setItem_caught_ne.
Qed.

End Loading.

(** ** Trimmed input *)

Lemma trimStart_clean s : starts_clean (trimStart s).
Proof.
  induction s as [|c s IH]; simpl; [done|].
  destruct (isWhiteSpace c) eqn:E; [done|]. simpl. done.
Qed.

Lemma trimStart_fixed s : starts_clean s -> trimStart s = s.
Proof. destruct s as [|c s]; simpl; [done|]. by intros ->. Qed.

Lemma trimStart_suffix s : exists p, s = p ++ trimStart s.
Proof.
  induction s as [|c s [p IH]]; simpl; [by exists []|].
  destruct (isWhiteSpace c).
  - exists (c :: p). simpl. by rewrite <- IH.
  - by exists [].
Qed.

Lemma trim_clean s : starts_clean (trim s) /\ starts_clean (rev (trim s)).
Proof.
  unfold trim, trimEnd. rewrite rev_involutive.
  split; [|apply trimStart_clean].
  destruct (trimStart_suffix (rev (trimStart s))) as [p Hp].
  apply (f_equal (@rev N)) in Hp. rewrite rev_involutive, rev_app_distr in Hp.
  pose proof (trimStart_clean s) as Hc. rewrite Hp in Hc.
  by destruct (rev (trimStart (rev (trimStart s)))).
Qed.

Lemma trim_idempotent s : trim (trim s) = trim s.
Proof.
  destruct (trim_clean s) as [H1 H2].
  unfold trim at 1, trimEnd.
  rewrite (trimStart_fixed (trim s)) by done.
  rewrite (trimStart_fixed (rev (trim s))) by done.
  apply rev_involutive.
Qed.

(** ** Editing the list *)

Section Editing.

Variable JSON_parse : jsstring -> option json.
Variable JSON_stringify : json -> jsstring.

Local Abbreviation handle := (handle JSON_stringify).
Local Abbreviation resolve := (resolve JSON_parse JSON_stringify).
Local Abbreviation stored_list := (stored_list JSON_parse).
Local Abbreviation quotes_json l := (JSON_stringify (JArr l)).
Local Abbreviation handleResetToDefault := (handleResetToDefault JSON_stringify).

Lemma getItem_written k v st :
  fits k v st -> getItem k (setItem_caught k v st) = Some v.
Proof. apply getItem_setItem_caught. Qed.

(** X10: each edit that goes through is written to the store: after an
    add of non-blank text, a confirmed delete or a confirmed reset, the
    text under the quotes key is the JSON of the list now in memory,
    provided that write fits the quota. *)
Theorem edits_are_persisted s :
  (trim (newQuoteText (app s)) <> [] ->
   let s' := exec (handle handleAddQuote) s in
   fits STORAGE_KEY (quotes_json (quotes (app s'))) (store s) ->
   getItem STORAGE_KEY (store s') = Some (quotes_json (quotes (app s')))) /\
  (forall idx,
   let s' := exec (handle (handleDeleteQuote true idx)) s in
   fits STORAGE_KEY (quotes_json (quotes (app s'))) (store s) ->
   getItem STORAGE_KEY (store s') = Some (quotes_json (quotes (app s')))) /\
  (let s' := exec (handle (handleResetToDefault true)) s in
   fits STORAGE_KEY (quotes_json DEFAULT_QUOTES) (store s) ->
   quotes (app s') = DEFAULT_QUOTES /\
   getItem STORAGE_KEY (store s') = Some (quotes_json DEFAULT_QUOTES)).
Proof.
  split; [|split].
  - intros Ht s'. subst s'.
    rewrite exec_handle, exec_commit, exec_handleAddQuote. cbv zeta.
    destruct (trim (newQuoteText (app s))) as [|c t]; [done|]. simpl.
    apply getItem_written.
  - intros idx s'. subst s'.
    rewrite exec_handle, exec_commit, exec_handleDeleteQuote. simpl.
    apply getItem_written.
  - intros s'. subst s'.
    rewrite exec_handle, exec_commit, exec_handleResetToDefault. simpl.
    intros Hfits. split; [done|].
    rewrite setItem_caught_over by done.
    unfold getItem. simpl. apply lookup_insert_eq.
Qed.

(** X11: an add with blank text (empty, or only white space) does nothing:
    no quote is added, no notice shown, the text field is left as typed
    and nothing is written. *)
Theorem blank_add_is_ignored s :
  trim (newQuoteText (app s)) = [] ->
  let s' := exec (handle handleAddQuote) s in
  app s' = app s /\ log s' = log s /\ (dirty s = false -> s' = s).
Proof.
  intros Ht s'. subst s'.
  rewrite exec_handle, exec_commit, exec_handleAddQuote. cbv zeta. rewrite Ht.
  simpl. split; [done|]. split; [done|].
  intros Hd. rewrite Hd. by destruct s as [a st l d]; simpl in *; subst.
Qed.

(** X12: the quote an add puts in front is a non-empty string with no
    white space at either end (trimming it again changes nothing); the
    text field is cleared and one notice shown. *)
Theorem added_quote_is_trimmed s :
  let t := trim (newQuoteText (app s)) in
  let s' := exec (handle handleAddQuote) s in
  t <> [] ->
  quotes (app s') !! 0 = Some (JStr t) /\
  is_quote (JStr t) = true /\
  starts_clean t /\ starts_clean (rev t) /\ trim t = t /\
  length (quotes (app s')) = S (length (quotes (app s))) /\
  newQuoteText (app s') = [] /\
  log s' = log s ++ [EvAlert (u16 "Quote added (saved locally).")].
Proof.
  intros t s' Ht. subst s'.
  rewrite exec_handle, exec_commit, exec_handleAddQuote. cbv zeta. fold t.
  pose proof (trim_clean (newQuoteText (app s))) as [H1 H2].
  pose proof (trim_idempotent (newQuoteText (app s))) as H3. fold t in H1, H2, H3.
  destruct t as [|c t']; [done|]. simpl. done.
Qed.

Lemma splice_start_in_range i n : i < n -> splice_start (Z.of_nat i) n = i.
Proof.
  intros Hi. unfold splice_start.
  destruct (Z.ltb_spec (Z.of_nat i) 0); [lia|]. rewrite Nat2Z.id. lia.
Qed.

(** X13: a confirmed delete on row [i] of the list removes exactly that
    quote: the quotes before it keep their place, those after it move up
    by one, and the list is one shorter. *)
Theorem delete_removes_row s i :
  i < length (quotes (app s)) ->
  let l := quotes (app s) in
  let l' := quotes (app (exec (handle (handleDeleteQuote true (Z.of_nat i))) s)) in
  l' = take i l ++ drop (S i) l /\
  length l' = length l - 1 /\
  (forall j, j < i -> l' !! j = l !! j) /\
  (forall j, i <= j -> l' !! j = l !! S j).
Proof.
  intros Hi l l'. subst l'.
  rewrite exec_handle, exec_commit, exec_handleDeleteQuote. simpl.
  unfold splice1. rewrite splice_start_in_range by done. fold l.
  split; [apply delete_take_drop|]. split; [|split].
  - apply length_delete. by apply lookup_lt_is_Some_2.
  - intros j Hj. by apply list_lookup_delete_lt.
  - intros j Hj. by apply list_lookup_delete_ge.
Qed.

(** X14: deleting the only quote stores an empty array, which the next
    load treats as no list at all: it asks the remote source again and
    adopts its answer, or falls back to the built-in list. *)
Theorem emptied_list_reloads_remote s x :
  quotes (app s) = [x] ->
  fits STORAGE_KEY (quotes_json []) (store s) ->
  quotes_json [] <> [] -> JSON_parse (quotes_json []) = Some (JArr []) ->
  let s' := exec (handle (handleDeleteQuote true 0)) s in
  quotes (app s') = [] /\
  getItem STORAGE_KEY (store s') = Some (quotes_json []) /\
  forall r net,
    log (resolve r net false (store s')) = [EvFetch RAW_GITHUB_URL (u16 "no-store")] /\
    quotes (app (resolve r net false (store s'))) =
      default DEFAULT_QUOTES (fetch_result JSON_parse net).
Proof.
  intros Hq Hfits Hne Hparse s'. subst s'.
  rewrite exec_handle, exec_commit, exec_handleDeleteQuote. simpl.
  rewrite Hq. simpl. rewrite setItem_caught_fits by done.
  split; [done|]. split; [unfold getItem; simpl; apply lookup_insert_eq|].
  intros r net.
  assert (Habs : stored_list
            (mkStorage (<[STORAGE_KEY := quotes_json []]> (items (store s)))
               (quota (store s))) = None).
  { by rewrite stored_list_written. }
  rewrite resolve_absent by done. cbv zeta.
  by destruct (fetch_result JSON_parse net).
Qed.

(** X15: no edit changes the quote on display, the lock state or whether
    the panel is open: the displayed quote stays even when it is the one
    deleted or when the list is reset. *)
Theorem edits_keep_display s (h : M unit) :
  h = handleAddQuote \/ (exists answer idx, h = handleDeleteQuote answer idx) \/
  (exists answer, h = handleResetToDefault answer) \/ h = handleSetPw ->
  let s' := exec (handle h) s in
  quote (app s') = quote (app s) /\
  authStep (app s') = authStep (app s) /\
  adminOpen (app s') = adminOpen (app s).
Proof.
  intros [-> | [(answer & idx & ->) | [(answer & ->) | ->]]] s'; subst s';
    rewrite exec_handle, exec_commit.
  - rewrite exec_handleAddQuote. cbv zeta. by destruct (str_truthy _).
  - rewrite exec_handleDeleteQuote. by destruct answer.
  - rewrite exec_handleResetToDefault. by destruct answer.
  - rewrite exec_handleSetPw. cbv zeta. by destruct (_ <? _)%nat.
Qed.

End Editing.

(** ** The admin gate *)

Section Gate.

Variable JSON_stringify : json -> jsstring.

Local Abbreviation handle := (handle JSON_stringify).
Local Abbreviation commit := (commit JSON_stringify).
Local Abbreviation authenticates := (authenticates JSON_stringify).
Local Abbreviation ui_step := (ui_step JSON_stringify).
Local Abbreviation ui_run := (ui_run JSON_stringify).
Local Abbreviation perform := (perform JSON_stringify).
Local Abbreviation handleResetToDefault := (handleResetToDefault JSON_stringify).

Lemma exec_tryUnlock s :
  exec tryUnlock s =
    let a := app s in
    if str_eqb (pwInput a) (getAdminPw (store s)) then
      mkSys (mkApp (quotes a) (quote a) (adminOpen a) unlocked [] (newQuoteText a)
               (adminPwState a))
            (store s) (log s) (dirty s)
    else mkSys a (store s) (log s ++ [EvAlert (u16 "Incorrect password.")]) (dirty s).
Proof.
  unfold tryUnlock, exec, bind, get_app. simpl.
  by destruct (str_eqb (pwInput (app s)) (getAdminPw (store s))).
Qed.

Lemma getAdminPw_nonempty st : getAdminPw st <> [].
Proof.
  unfold getAdminPw. destruct (getItem ADMIN_PW_KEY st) as [[|c v]|]; simpl; discriminate.
Qed.

Lemma secret_item_commit s :
  getItem ADMIN_PW_KEY (store (exec commit s)) = getItem ADMIN_PW_KEY (store s).
Proof.
  rewrite exec_commit. simpl. destruct (dirty s); [|done].
  apply getItem_setItem_caught_ne, keys_distinct.
Qed.

(** X16: pressing Unlock with the stored secret (or "basedfin" when none
    is stored) in the field unlocks and clears the field without a notice;
    with anything else it changes nothing and shows "Incorrect password.";
    after closing and re-opening the panel the state is locked again. *)
Theorem tryUnlock_cases s :
  let s' := exec (handle tryUnlock) s in
  (pwInput (app s) = getAdminPw (store s) ->
   authStep (app s') = unlocked /\ pwInput (app s') = [] /\ log s' = log s /\
   authStep (app (exec (handle openAdmin) (exec (handle closeAdmin) s'))) = locked) /\
  (pwInput (app s) <> getAdminPw (store s) ->
   app s' = app s /\ log s' = log s ++ [EvAlert (u16 "Incorrect password.")]).
Proof.
  intros s'. subst s'.
  rewrite !exec_handle, !exec_commit, exec_tryUnlock. cbv zeta.
  split.
  - intros E. apply str_eqb_eq in E. rewrite E. done.
  - intros E. unfold str_eqb. rewrite bool_decide_eq_false_2 by done. done.
Qed.

(** X17: the new secret is stored trimmed, but Unlock compares the field
    as typed: after setting a secret typed with white space around it, the
    text as typed does not unlock, its trimmed form does. *)
Theorem unlock_does_not_trim s :
  let p := pwInput (app s) in
  let t := trim p in
  let s' := exec (handle handleSetPw) s in
  4 <= length t -> fits ADMIN_PW_KEY t (store s) -> t <> p ->
  getAdminPw (store s') = t /\
  authenticates s' p = false /\
  authenticates s' t = true.
Proof.
  intros p t s' Hlen Hfits Hne. subst s'.
  rewrite !authenticates_eq, exec_handle, getAdminPw_commit, exec_handleSetPw.
  cbv zeta. fold p t. apply Nat.ltb_ge in Hlen. rewrite Hlen. simpl.
  assert (Hnew : getAdminPw (setItem_caught ADMIN_PW_KEY t (store s)) = t).
  { unfold getAdminPw. rewrite getItem_setItem_caught by done.
    apply Nat.ltb_ge in Hlen. destruct t; [simpl in Hlen; lia | done]. }
  rewrite Hnew. split; [done|]. split.
  - unfold str_eqb. apply bool_decide_eq_false. congruence.
  - by apply str_eqb_eq.
Qed.

(** X18: the list and the secret live under separate keys: no add, delete
    or reset changes the secret, and a secret update changes neither the
    list in memory nor, when no list write is pending, the stored list. *)
Theorem edits_and_secret_are_separate s :
  getAdminPw (store (exec (handle handleAddQuote) s)) = getAdminPw (store s) /\
  (forall answer idx,
     getAdminPw (store (exec (handle (handleDeleteQuote answer idx)) s)) =
       getAdminPw (store s)) /\
  (forall answer,
     getAdminPw (store (exec (handle (handleResetToDefault answer)) s)) =
       getAdminPw (store s)) /\
  quotes (app (exec (handle handleSetPw) s)) = quotes (app s) /\
  (dirty s = false ->
   getItem STORAGE_KEY (store (exec (handle handleSetPw) s)) =
     getItem STORAGE_KEY (store s)).
Proof.
  split; [|split; [|split; [|split]]].
  - rewrite exec_handle, getAdminPw_commit, exec_handleAddQuote. cbv zeta.
    by destruct (str_truthy _).
  - intros answer idx.
    rewrite exec_handle, getAdminPw_commit, exec_handleDeleteQuote. by destruct answer.
  - intros answer.
    rewrite exec_handle, getAdminPw_commit, exec_handleResetToDefault.
    destruct answer; simpl; [apply getAdminPw_quotes_write | done].
  - rewrite exec_handle, exec_commit, exec_handleSetPw. cbv zeta.
    by destruct (_ <? _)%nat.
  - intros Hd. rewrite exec_handle, exec_commit, exec_handleSetPw. cbv zeta.
    destruct (_ <? _)%nat; simpl; rewrite Hd; [done|].
    apply getItem_setItem_caught_ne. intros E. by apply keys_distinct.
Qed.

(** *** Runs of user actions *)

Lemma ui_step_cases s a :
  ui_step s a = s \/
  (rendered a (app s) = true /\ ui_step s a = exec commit (exec (perform a) s)).
Proof.
  unfold ui_step. destruct (rendered a (app s)); [right | by left].
  by rewrite exec_handle.
Qed.

Lemma ui_run_invariant (P : Sys -> Prop) :
  (forall s a, P s -> P (ui_step s a)) ->
  forall l s, P s -> P (ui_run s l).
Proof.
  intros Hstep l. induction l as [|a l IH]; intros s Hs; simpl; [done|].
  apply IH, Hstep, Hs.
Qed.

Lemma edit_needs_unlocked a st :
  authStep st = locked -> rendered a st = true ->
  a = AOpenAdmin \/ a = ACloseAdmin \/ (exists v, a = ATypePw v) \/ a = AUnlock \/ a = AForgot.
Proof.
  intros Hl Hr. destruct a; simpl in Hr; rewrite ?Hl in Hr; simpl in Hr;
    rewrite ?andb_false_r in Hr; try discriminate; eauto 10.
Qed.

Lemma gate_step s0 s a :
  (forall v, a = ATypePw v -> v <> getAdminPw (store s0)) ->
  gate_holds s0 s -> gate_holds s0 (ui_step s a).
Proof.
  intros Hv (Hl & Hp & Hq & Hk).
  destruct (ui_step_cases s a) as [-> | [Hr ->]]; [done|].
  assert (Hsec : getAdminPw (store s) = getAdminPw (store s0)).
  { unfold getAdminPw. by rewrite Hk. }
  unfold gate_holds. rewrite secret_item_commit, exec_commit. simpl.
  destruct (edit_needs_unlocked a (app s) Hl Hr)
    as [-> | [-> | [[v ->] | [-> | ->]]]]; simpl.
  - split; [done|]. split; [|done]. intros E. symmetry in E.
    by apply getAdminPw_nonempty in E.
  - done.
  - split; [done|]. split; [|done]. by apply Hv.
  - rewrite exec_tryUnlock. cbv zeta. rewrite Hsec.
    unfold str_eqb. rewrite bool_decide_eq_false_2 by done. done.
  - done.
Qed.

Lemma gate_run l s0 s1 :
  gate_holds s0 s1 ->
  (forall v, ATypePw v ∈ l -> v <> getAdminPw (store s0)) ->
  gate_holds s0 (ui_run s1 l).
Proof.
  revert s1. induction l as [|a l IH]; intros s1 G Hv; [done|].
  unfold ui_run. simpl. apply IH.
  - apply gate_step; [|done]. intros v ->. apply Hv. set_solver.
  - intros v Hin. apply Hv. set_solver.
Qed.

(** X19: the gate holds over any run of user actions: starting locked,
    as long as the secret itself is never typed into the password field,
    the panel stays locked, and neither the list nor the stored secret
    changes, whatever is clicked or typed. *)
Theorem gate_keeps_edits_out s l :
  authStep (app s) = locked ->
  pwInput (app s) <> getAdminPw (store s) ->
  (forall v, ATypePw v ∈ l -> v <> getAdminPw (store s)) ->
  let s' := ui_run s l in
  authStep (app s') = locked /\
  quotes (app s') = quotes (app s) /\
  getItem ADMIN_PW_KEY (store s') = getItem ADMIN_PW_KEY (store s) /\
  getAdminPw (store s') = getAdminPw (store s).
Proof.
  intros Hl Hp Hv s'. subst s'.
  destruct (gate_run l s s) as (H1 & _ & H3 & H4); [done | done |].
  split; [done|]. split; [done|]. split; [done|].
  unfold getAdminPw. by rewrite H4.
Qed.

Lemma perform_keeps_secret a s :
  a <> ASetPw ->
  getAdminPw (store (exec (perform a) s)) = getAdminPw (store s).
Proof.
  intros Ha. destruct a; try done; simpl.
  - rewrite exec_tryUnlock. cbv zeta. by destruct (str_eqb _ _).
  - rewrite exec_handleAddQuote. cbv zeta. by destruct (str_truthy _).
  - rewrite exec_handleDeleteQuote. by destruct answer.
  - rewrite exec_handleResetToDefault.
    destruct answer; simpl; [apply getAdminPw_quotes_write | done].
Qed.

(** X20: no run of user actions makes the effective secret shorter than
    4 code units: a secret that is long enough (as the default is) stays
    so, whether or not the writes go through. *)
Theorem secret_stays_long s l :
  4 <= length (getAdminPw (store s)) ->
  4 <= length (getAdminPw (store (ui_run s l))).
Proof.
  intros H0.
  apply (ui_run_invariant (fun s => 4 <= length (getAdminPw (store s)))); [|done].
  clear s H0. intros s a Hs.
  destruct (ui_step_cases s a) as [-> | [_ ->]]; [done|].
  rewrite getAdminPw_commit.
  assert (a = ASetPw \/ a <> ASetPw) as [-> | Ha]
    by (destruct a; (by left) || (by right)).
  - simpl. rewrite exec_handleSetPw. cbv zeta.
    destruct (Nat.ltb_spec (length (trim (pwInput (app s)))) 4) as [|Hlen]; [done|].
    simpl. destruct (setItem_caught_cases ADMIN_PW_KEY (trim (pwInput (app s))) (store s))
      as [-> | ->]; [done|].
    unfold getAdminPw, getItem. simpl. rewrite lookup_insert_eq.
    destruct (trim (pwInput (app s))); [simpl in Hlen; lia | done].
  - by rewrite perform_keeps_secret.
Qed.

Lemma DEFAULT_QUOTES_are_quotes : Forall (fun q => is_quote q = true) DEFAULT_QUOTES.
Proof. apply Forall_forall. intros q Hq. by repeat (apply elem_of_cons in Hq as [-> | Hq]; [done|]); set_solver. Qed.

(** X21: no run of user actions puts anything but non-empty strings into
    the list: if every element is a non-empty string at the start, so is
    every element after any adds, deletes and resets. *)
Theorem quotes_stay_quotes s l :
  Forall (fun q => is_quote q = true) (quotes (app s)) ->
  Forall (fun q => is_quote q = true) (quotes (app (ui_run s l))).
Proof.
  intros H0.
  apply (ui_run_invariant
           (fun s => Forall (fun q => is_quote q = true) (quotes (app s)))); [|done].
  clear s H0. intros s a Hs.
  destruct (ui_step_cases s a) as [-> | [_ ->]]; [done|].
  rewrite exec_commit. simpl. destruct a; try done; simpl.
  - rewrite exec_tryUnlock. cbv zeta. by destruct (str_eqb _ _).
  - rewrite exec_handleAddQuote. cbv zeta.
    destruct (trim (newQuoteText (app s))) as [|c t]; simpl; [done|].
    by constructor.
  - rewrite exec_handleDeleteQuote. destruct answer; simpl; [|done].
    by apply Forall_delete.
  - rewrite exec_handleSetPw. cbv zeta. by destruct (_ <? _)%nat.
  - rewrite exec_handleResetToDefault.
    destruct answer; simpl; [apply DEFAULT_QUOTES_are_quotes | done].
Qed.

End Gate.

(** ** More on the cast dispatch *)

(** X22: when [window.farcaster] is truthy but has no [openComposer]
    function, no composer is called, even if [window.Farcaster] has one:
    the message is posted to the parent frame instead. *)
Theorem lowercase_global_shadows w text s :
  farcaster w = GTruthy None ->
  let calls := calls_since s (exec (tryOpenFarcasterComposer w text) s) in
  hostComposer w = None /\ count is_open calls = 0 /\ count is_post calls = 1.
Proof.
  intros Hf calls. subst calls. rewrite calls_since_dispatch.
  unfold cast_calls, hostComposer. rewrite Hf. simpl.
  destruct (parent_postMessage w), (clipboard w) as [[|]|]; vm_compute; done.
Qed.

(** X23: the dispatch changes neither the component state nor the store,
    and it does not give up silently: when no composer returns, the post
    throws and the clipboard is missing or its write fails, its last call
    is the prompt holding the quote. *)
Theorem dispatch_ends_in_prompt w text s :
  let s' := exec (tryOpenFarcasterComposer w text) s in
  app s' = app s /\ store s' = store s /\ dirty s' = dirty s /\
  calls_since s s' <> [] /\
  (hostComposer w <> Some Returns -> parent_postMessage w = Throws ->
   clipboard w <> Some Returns ->
   last (calls_since s s') = Some (EvPrompt (u16 "Copy this quote:") text)).
Proof.
  intros s'. subst s'. rewrite calls_since_dispatch.
  rewrite exec_tryOpenFarcasterComposer. simpl.
  split; [done|]. split; [done|]. split; [done|].
  unfold cast_calls.
  destruct (hostComposer w) as [[|]|], (parent_postMessage w), (clipboard w) as [[|]|];
    simpl; split; done.
Qed.

(** ** The further properties on concrete inputs *)

Lemma loadQuotes_cases_witness :
  loadQuotes RefJSON.parse gm_store = [gm; gn] /\
  loadQuotes RefJSON.parse (emptyStorage 5000) = DEFAULT_QUOTES.
Proof.
  split.
  - destruct (loadQuotes_cases RefJSON.parse gm_store) as (_ & H & _).
    apply (H (RefJSON.stringify (JArr [gm; gn]))).
    + vm_compute. reflexivity.
    + vm_compute. discriminate.
    + vm_compute. reflexivity.
    + discriminate.
  - destruct (loadQuotes_cases RefJSON.parse (emptyStorage 5000)) as (_ & _ & H & _).
    apply H. reflexivity.
Defined.

Lemma saveQuotes_then_loadQuotes_witness :
  let s' := exec (saveQuotes RefJSON.stringify [gm]) (load (emptyStorage 5000)) in
  loadQuotes RefJSON.parse (store s') = [gm].
Proof.
  intros s'.
  destruct (saveQuotes_then_loadQuotes RefJSON.parse RefJSON.stringify
              (load (emptyStorage 5000)) [gm]) as (_ & _ & _ & H & _).
  apply H.
  - vm_compute. discriminate.
  - vm_compute. discriminate.
  - vm_compute. reflexivity.
Defined.

Lemma resolve_requests_witness :
  log (load (emptyStorage 5000)) = [EvFetch RAW_GITHUB_URL (u16 "no-store")].
Proof.
  apply (resolve_requests RefJSON.parse RefJSON.stringify half NetworkError false
           (emptyStorage 5000)).
  vm_compute. reflexivity.
Defined.

Lemma resolve_cancelled_witness :
  let s := resolve RefJSON.parse RefJSON.stringify half
             (Response true (RefJSON.stringify (JArr [gm; gn]))) true (emptyStorage 5000) in
  quotes (app s) = DEFAULT_QUOTES /\ quote (app s) = Some (JStr []).
Proof.
  intros s.
  destruct (resolve_cancelled RefJSON.parse RefJSON.stringify half
              (Response true (RefJSON.stringify (JArr [gm; gn]))) (emptyStorage 5000))
    as (H1 & H2 & _).
  - vm_compute. reflexivity.
  - split; [exact H1 | exact H2].
Defined.

Lemma reload_is_stable_witness :
  let s := load (emptyStorage 5000) in
  quotes (app s) = DEFAULT_QUOTES /\
  quotes (app (load (store s))) = DEFAULT_QUOTES /\
  log (load (store s)) = [].
Proof.
  intros s.
  destruct (reload_is_stable RefJSON.parse RefJSON.stringify half NetworkError
              (emptyStorage 5000)) as (_ & H).
  - vm_compute. discriminate.
  - vm_compute. discriminate.
  - vm_compute. reflexivity.
  - split; [vm_compute; reflexivity|]. apply H.
Defined.

Lemma edits_are_persisted_witness :
  let s' := exec (handle RefJSON.stringify (handleResetToDefault RefJSON.stringify true))
              (load gm_store) in
  quotes (app s') = DEFAULT_QUOTES /\
  getItem STORAGE_KEY (store s') = Some (RefJSON.stringify (JArr DEFAULT_QUOTES)).
Proof.
  intros s'.
  destruct (edits_are_persisted RefJSON.stringify (load gm_store)) as (_ & _ & H).
  apply H. vm_compute. discriminate.
Defined.

Lemma blank_add_is_ignored_witness :
  let s := exec (handle RefJSON.stringify (setNewQuoteText (u16 "   "))) (load gm_store) in
  let s' := exec (handle RefJSON.stringify handleAddQuote) s in
  app s' = app s /\ log s' = log s /\ (dirty s = false -> s' = s).
Proof.
  intros s. apply (blank_add_is_ignored RefJSON.stringify s). vm_compute. reflexivity.
Defined.

Lemma added_quote_is_trimmed_witness :
  let s := exec (handle RefJSON.stringify (setNewQuoteText (u16 "  wagmi "))) (load gm_store) in
  let s' := exec (handle RefJSON.stringify handleAddQuote) s in
  quotes (app s') !! 0 = Some (JStr (u16 "wagmi")) /\
  length (quotes (app s')) = 3.
Proof.
  intros s s'.
  destruct (added_quote_is_trimmed RefJSON.stringify s) as (H1 & _ & _ & _ & _ & H2 & _).
  - vm_compute. discriminate.
  - split; [exact H1 | exact H2].
Defined.

Lemma delete_removes_row_witness :
  quotes (app (exec (handle RefJSON.stringify (handleDeleteQuote true 1)) (load gm_store)))
    = [gm].
Proof.
  destruct (delete_removes_row RefJSON.stringify (load gm_store) 1) as (H & _).
  - vm_compute. lia.
  - exact H.
Defined.

Lemma emptied_list_reloads_remote_witness :
  let s' := exec (handle RefJSON.stringify (handleDeleteQuote true 0)) (load one_store) in
  quotes (app s') = [] /\
  quotes (app (resolve RefJSON.parse RefJSON.stringify half
                 (Response true (RefJSON.stringify (JArr [gn]))) false (store s'))) = [gn].
Proof.
  intros s'.
  destruct (emptied_list_reloads_remote RefJSON.parse RefJSON.stringify (load one_store) gm)
    as (H1 & _ & H3).
  - vm_compute. reflexivity.
  - vm_compute. discriminate.
  - vm_compute. discriminate.
  - vm_compute. reflexivity.
  - split; [exact H1|].
    destruct (H3 half (Response true (RefJSON.stringify (JArr [gn])))) as [_ H].
    fold s' in H. rewrite H. vm_compute. reflexivity.
Defined.

Lemma edits_keep_display_witness :
  quote (app (exec (handle RefJSON.stringify (handleDeleteQuote true 0)) (load one_store)))
    = quote (app (load one_store)).
Proof.
  apply (edits_keep_display RefJSON.stringify (load one_store) (handleDeleteQuote true 0)).
  right. left. by exists true, 0%Z.
Defined.

Lemma tryUnlock_cases_witness :
  authStep (app (exec (handle RefJSON.stringify tryUnlock)
                   (typed "basedfin" (emptyStorage 5000)))) = unlocked /\
  authStep (app (exec (handle RefJSON.stringify tryUnlock)
                   (typed "letmein" (emptyStorage 5000)))) = locked.
Proof.
  split.
  - destruct (tryUnlock_cases RefJSON.stringify (typed "basedfin" (emptyStorage 5000)))
      as [H _].
    apply H. vm_compute. reflexivity.
  - destruct (tryUnlock_cases RefJSON.stringify (typed "letmein" (emptyStorage 5000)))
      as [_ H].
    destruct H as [H _]; [vm_compute; discriminate|].
    rewrite H. vm_compute. reflexivity.
Defined.

Lemma unlock_does_not_trim_witness :
  let s' := exec (handle RefJSON.stringify handleSetPw) (typed " abcd " (emptyStorage 5000)) in
  getAdminPw (store s') = u16 "abcd" /\
  authenticates RefJSON.stringify s' (u16 " abcd ") = false /\
  authenticates RefJSON.stringify s' (u16 "abcd") = true.
Proof.
  apply (unlock_does_not_trim RefJSON.stringify (typed " abcd " (emptyStorage 5000))).
  - vm_compute. lia.
  - vm_compute. discriminate.
  - vm_compute. discriminate.
Defined.

Lemma edits_and_secret_are_separate_witness :
  getItem STORAGE_KEY
    (store (exec (handle RefJSON.stringify handleSetPw) (typed "abcd" gm_store))) =
  getItem STORAGE_KEY (store (typed "abcd" gm_store)).
Proof.
  apply (edits_and_secret_are_separate RefJSON.stringify (typed "abcd" gm_store)).
  vm_compute. reflexivity.
Defined.

Lemma gate_keeps_edits_out_witness :
  let l := [AOpenAdmin; ATypePw (u16 "letmein"); AUnlock; ATypeQuote (u16 "rug"); AAdd;
            ADelete true 0; AReset true; ASetPw] in
  let s' := ui_run RefJSON.stringify (load gm_store) l in
  authStep (app s') = locked /\
  quotes (app s') = [gm; gn] /\
  getAdminPw (store s') = u16 "basedfin".
Proof.
  intros l s'.
  destruct (gate_keeps_edits_out RefJSON.stringify (load gm_store) l) as (H1 & H2 & _ & H4).
  - vm_compute. reflexivity.
  - vm_compute. discriminate.
  - intros v Hin. subst l. apply list_elem_of_In in Hin. simpl in Hin.
    destruct Hin as [E|[E|[E|[E|[E|[E|[E|[E|[]]]]]]]]]; try discriminate E.
    injection E as <-. vm_compute. discriminate.
  - subst s'. split; [exact H1|].
    split; [rewrite H2 | rewrite H4]; vm_compute; reflexivity.
Defined.

Lemma secret_stays_long_witness :
  4 <= length (getAdminPw (store (ui_run RefJSON.stringify (load gm_store)
                                    [AOpenAdmin; ATypePw (u16 "basedfin"); AUnlock;
                                     ATypePw (u16 " ab "); ASetPw]))).
Proof.
  apply (secret_stays_long RefJSON.stringify (load gm_store)). vm_compute. lia.
Defined.

Lemma quotes_stay_quotes_witness :
  Forall (fun q => is_quote q = true)
    (quotes (app (ui_run RefJSON.stringify (load gm_store)
                    [AOpenAdmin; ATypePw (u16 "basedfin"); AUnlock;
                     ATypeQuote (u16 " wagmi "); AAdd; ADelete true 1]))).
Proof.
  apply (quotes_stay_quotes RefJSON.stringify (load gm_store)).
  vm_compute. repeat constructor.
Defined.

Lemma lowercase_global_shadows_witness :
  let w := mkWindow (GTruthy None) (GTruthy (Some Returns)) Returns None in
  let s := load gm_store in
  let calls := calls_since s (exec (tryOpenFarcasterComposer w (u16 "gm")) s) in
  hostComposer w = None /\ count is_open calls = 0 /\ count is_post calls = 1.
Proof.
  intros w s.
  apply (lowercase_global_shadows w (u16 "gm") s). reflexivity.
Defined.

Lemma dispatch_ends_in_prompt_witness :
  let w := mkWindow GFalsy GFalsy Throws (Some Throws) in
  let s := load gm_store in
  last (calls_since s (exec (tryOpenFarcasterComposer w (u16 "gm")) s)) =
    Some (EvPrompt (u16 "Copy this quote:") (u16 "gm")).
Proof.
  intros w s.
  apply (dispatch_ends_in_prompt w (u16 "gm") s); [discriminate | reflexivity | discriminate].
Defined.
